(** * Chat-completion response handling (agent/request.ts)

    A shallow embedding of [packages/lib/core/src/agent/request.ts]: the
    thinking-markup sanitizer, the content-type classifier, the extractor
    defaulting, the stream consumer, the response mapper and the request
    orchestrator, followed by the properties proved about them. *)

From Stdlib Require Import ZArith NArith Lia Ascii String List Bool.
From Stdlib Require Import Floats.PrimFloat.
From stdpp Require Import base option list gmap strings.

Local Open Scope nat_scope.

(** ** JavaScript strings

    A JavaScript string is a sequence of UTF-16 code units; [length] counts
    code units, and a regular expression without the [u] flag walks the
    string one code unit at a time. *)

Module JsString.

Abbreviation jsstring := (list N).

(** A literal of the source, all of whose characters are below U+0100:
    every character becomes the code unit of the same number. *)
Fixpoint js (s : string) : jsstring :=
  match s with
  | EmptyString => []
  | String a s' => N_of_ascii a :: js s'
  end.

(** WhiteSpace and LineTerminator code points of ECMAScript, the ones
    [trimStart] removes; all of them are single code units. *)
Definition isWhiteSpace (c : N) : bool :=
  ((9 <=? c) && (c <=? 13) || (c =? 32) || (c =? 160) || (c =? 5760)
   || (8192 <=? c) && (c <=? 8202) || (c =? 8232) || (c =? 8233)
   || (c =? 8239) || (c =? 8287) || (c =? 12288) || (c =? 65279))%N.

(** [String.prototype.trimStart]. *)
Fixpoint trimStart (s : jsstring) : jsstring :=
  match s with
  | c :: s' => if isWhiteSpace c then trimStart s' else s
  | [] => []
  end.

(** [text.substring(0, n)] for [0 <= n]: the first [n] code units, the
    whole text when it is shorter. *)
Definition substring0 (n : nat) (s : jsstring) : jsstring := take n s.

(** [s.startsWith(p)] *)
Fixpoint startsWith (p s : jsstring) : bool :=
  match p, s with
  | [], _ => true
  | c :: p', d :: s' => (c =? d)%N && startsWith p' s'
  | _ :: _, [] => false
  end.

(** [s.includes(p)] *)
Fixpoint includes (p s : jsstring) : bool :=
  startsWith p s ||
  match s with
  | _ :: s' => includes p s'
  | [] => false
  end.

End JsString.
Export JsString.

(** ** Regular expressions

    A backtracking matcher in continuation-passing style: a pattern applied
    to a continuation [k] and a text consumes a prefix of the text and hands
    the remainder to [k]; when [k] fails the pattern tries its next
    alternative.  The result is the text that remains after the whole
    match. *)

Module Regex.

Definition cont := jsstring -> option jsstring.
Definition pattern := cont -> cont.

(** A sequence of literal characters. *)
Fixpoint lit (p : jsstring) : pattern := fun k s =>
  match p with
  | [] => k s
  | c :: p' =>
      match s with
      | d :: s' => if (c =? d)%N then lit p' k s' else None
      | [] => None
      end
  end.

(** [(?:r)?], greedy: first with [r], then without. *)
Definition opt (r : pattern) : pattern := fun k s =>
  match r k s with
  | Some rest => Some rest
  | None => k s
  end.

(** [[\s\S]*?], lazy: first nothing, then one more code unit. *)
Fixpoint lazy_any (k : cont) (s : jsstring) : option jsstring :=
  match k s with
  | Some rest => Some rest
  | None =>
      match s with
      | _ :: s' => lazy_any k s'
      | [] => None
      end
  end.

(** Sequencing of patterns. *)
Definition seq (r1 r2 : pattern) : pattern := fun k => r1 (r2 k).

(** [r1|r2]: the left alternative first. *)
Definition alt (r1 r2 : pattern) : pattern := fun k s =>
  match r1 k s with
  | Some rest => Some rest
  | None => r2 k s
  end.

(** A match anchored at the head of the text. *)
Definition match_here (r : pattern) (s : jsstring) : option jsstring := r Some s.

(** [text.replace(/r/g, '')]: at every position, from the left, a match is
    dropped and the scan resumes after it; otherwise the code unit is
    kept.  The fuel bounds the number of scan steps. *)
Fixpoint replace_from (fuel : nat) (r : pattern) (s : jsstring) : jsstring :=
  match fuel with
  | O => s
  | S fuel' =>
      match match_here r s with
      | Some rest => replace_from fuel' r rest
      | None =>
          match s with
          | c :: s' => c :: replace_from fuel' r s'
          | [] => []
          end
      end
  end.

Definition replace_all (r : pattern) (s : jsstring) : jsstring :=
  replace_from (S (length s)) r s.

(** [text.match(/r/)]: the index of the leftmost match, if any. *)
Fixpoint search (r : pattern) (s : jsstring) : option nat :=
  match match_here r s with
  | Some _ => Some 0
  | None =>
      match s with
      | _ :: s' => S <$> search r s'
      | [] => None
      end
  end.

(** A pattern makes progress when every match consumes something. *)
Definition progresses (r : pattern) : Prop :=
  forall s rest, match_here r s = Some rest -> length rest < length s.

End Regex.

(** ** The sanitizer *)

Module Sanitizer.
Import Regex.

(** [/<think(?:ing)?>/] *)
Definition re_open : pattern :=
  seq (lit (js "<think")) (seq (opt (lit (js "ing"))) (lit (js ">"))).

(** [/<\/think(?:ing)?>/] *)
Definition re_close : pattern :=
  seq (lit (js "</think")) (seq (opt (lit (js "ing"))) (lit (js ">"))).

(** [/<think(?:ing)?>[\s\S]*?<\/think(?:ing)?>/] *)
Definition re_block : pattern :=
  seq re_open (fun k => lazy_any (re_close k)).

Definition stripThinkingContent (text : jsstring) : jsstring :=
  let text := replace_all re_block text in
  let text :=
    match search re_open text with
    | Some index => substring0 index text
    | None => text
    end in
  trimStart text.

End Sanitizer.
Export Sanitizer.

(** ** JavaScript values, exceptions and results *)

Module Js.

(** The values a parsed JSON body is made of, and [undefined].  An object
    is the list of its own properties. *)
#[warnings="-register-all"] Inductive JsVal :=
| JUndefined
| JNull
| JBool (b : bool)
| JNum (f : float)
| JStr (s : jsstring)
| JArr (items : list JsVal)
| JObj (fields : list (jsstring * JsVal)).

(** ToBoolean. *)
Definition truthy (v : JsVal) : bool :=
  match v with
  | JUndefined | JNull => false
  | JBool b => b
  | JNum f => negb (PrimFloat.eqb f 0%float) && PrimFloat.eqb f f
  | JStr s => match s with [] => false | _ => true end
  | JArr _ | JObj _ => true
  end.

Definition nullish (v : JsVal) : bool :=
  match v with
  | JUndefined | JNull => true
  | _ => false
  end.

(** [a || b] *)
Definition js_or (a b : JsVal) : JsVal := if truthy a then a else b.

Inductive ErrorKind := KError | KTypeError | KSyntaxError | KAbortError.

(** A thrown error object: its constructor and its [message]. *)
Record JsError := mkError { kind : ErrorKind; message : jsstring }.

(** A computation that returns or throws; an awaited promise that
    resolves or rejects. *)
Inductive result (A : Type) :=
| Ret (a : A)
| Throw (e : JsError).
Arguments Ret {A} a.
Arguments Throw {A} e.

#[global] Instance result_ret : MRet result := fun A a => Ret a.
#[global] Instance result_bind : MBind result := fun A B k r =>
  match r with
  | Ret a => k a
  | Throw e => Throw e
  end.

Fixpoint lookup_field (name : jsstring) (fields : list (jsstring * JsVal)) : JsVal :=
  match fields with
  | (n, v) :: rest => if decide (n = name) then v else lookup_field name rest
  | [] => JUndefined
  end.

(** Whether the object has an own property [name]. *)
Definition has_field (name : jsstring) (fields : list (jsstring * JsVal)) : bool :=
  existsb (fun field => bool_decide (field.1 = name)) fields.

(** The results of [f] on the items, from the left, up to the first one
    that throws. *)
Definition each {A B} (f : A -> result B) : list A -> result (list B) :=
  fix go items :=
    match items with
    | [] => Ret []
    | x :: rest => y ← f x; ys ← go rest; Ret (y :: ys)
    end.

Definition describe (v : JsVal) : string :=
  match v with
  | JNull => "null"
  | _ => "undefined"
  end.

(** [v.name], for the property names the source reads ([choices],
    [delta], [message], [content], [error]), none of which a prototype
    defines: the own property of an object, [undefined] on any other
    value, a TypeError (worded as V8 words it) on [null] and
    [undefined]. *)
Definition get (v : JsVal) (name : string) : result JsVal :=
  match v with
  | JUndefined | JNull =>
      Throw (mkError KTypeError
               (js "Cannot read properties of " ++ js (describe v)
                ++ js " (reading '" ++ js name ++ js "')"))
  | JObj fields => Ret (lookup_field (js name) fields)
  | _ => Ret JUndefined
  end.

(** The rest of an optional chain after [v?.]: skipped, with result
    [undefined], when [v] is [null] or [undefined]. *)
Definition chain (v : JsVal) (k : JsVal -> result JsVal) : result JsVal :=
  if nullish v then Ret JUndefined else k v.

(** [v.at(0)] on a value that is neither [null] nor [undefined]: arrays
    and strings have the method; on anything else [at] is not a
    function. *)
Definition at0 (v : JsVal) : result JsVal :=
  match v with
  | JArr items => Ret (hd JUndefined items)
  | JStr s => Ret (match s with c :: _ => JStr [c] | [] => JUndefined end)
  | _ => Throw (mkError KTypeError (js "d.choices.at is not a function"))
  end.

Section ToString.
(** Number::toString of ECMAScript, not modelled here. *)
Variable NumberToString : float -> jsstring.

Fixpoint join (parts : list jsstring) : jsstring :=
  match parts with
  | [] => []
  | [p] => p
  | p :: rest => p ++ js "," ++ join rest
  end.

(** ToString.  An array is converted by [Array.prototype.join].  An
    object is converted by its [toString] method: the one it inherits
    from [Object.prototype] gives [[object Object]]; an own property
    [toString] hides that one and, being a value of the kind above, is
    not callable, and [valueOf] gives no primitive value either (the
    inherited one returns the object itself), so the conversion throws a
    TypeError (worded as V8 words it). *)
Fixpoint ToString (v : JsVal) : result jsstring :=
  match v with
  | JUndefined => Ret (js "undefined")
  | JNull => Ret (js "null")
  | JBool b => Ret (if b then js "true" else js "false")
  | JNum f => Ret (NumberToString f)
  | JStr s => Ret s
  | JArr items =>
      parts ← each (fun x => if nullish x then Ret [] else ToString x) items;
      Ret (join parts)
  | JObj fields =>
      if has_field (js "toString") fields
      then Throw (mkError KTypeError (js "Cannot convert object to primitive value"))
      else Ret (js "[object Object]")
  end.

(** What [throw new Error(v)] throws, for a [v] other than [undefined]:
    the new error, whose message is [v] as a string, or what the
    conversion of [v] throws. *)
Definition newError (v : JsVal) : JsError :=
  match ToString v with
  | Ret text => mkError KError text
  | Throw e => e
  end.
End ToString.

End Js.
Export Js.

(** ** Responses and frame sequences *)

Module Http.

(** An [AbortController], by the state of its signal. *)
Record AbortController := { aborted : bool }.

(** A [Response] as far as the source reads it.  Header values and the
    status text are byte strings; [headers] maps lower-cased header names
    to their combined values; [json] is what [resp.json()] settles to. *)
Record Response := {
  ok : bool;
  statusText : string;
  headers : gmap string string;
  json : result JsVal;
}.

(** An async iterable of frames, consumed once: finitely many frames,
    then the end of the iteration or a failure. *)
Record AsyncIterable (T : Type) := {
  frames : list T;
  failure : option JsError;
}.
Arguments frames {T} _.
Arguments failure {T} _.

Abbreviation Stream := (AsyncIterable JsVal).

(** [s.toLowerCase()] on the code units of a byte string: the letters
    A-Z and the capital letters of Latin-1 (U+00C0 to U+00DE but U+00D7)
    move up by 32. *)
Definition lowerUnit (c : N) : N :=
  if ((65 <=? c) && (c <=? 90)
      || (192 <=? c) && (c <=? 222) && negb (c =? 215))%N
  then (c + 32)%N else c.

Definition toLowerCase (s : jsstring) : jsstring := map lowerUnit s.

(** [resp.headers.get(name)] for a lower-case [name]. *)
Definition headers_get (resp : Response) (name : string) : option jsstring :=
  js <$> headers resp !! name.

End Http.
Export Http.

(** ** The response classifier *)

Module Classifier.

Definition isJsonResponse (resp : Response) : bool :=
  let contentType := headers_get resp "content-type" in
  match contentType with
  | Some contentType => includes (js "application/json") (toLowerCase contentType)
  | None => false
  end.

Definition isEventStreamResponse (resp : Response) : bool :=
  let types := [js "application/stream+json"; js "text/event-stream"] in
  let content :=
    match headers_get resp "content-type" with
    | Some contentType => toLowerCase contentType
    | None => []
    end in
  existsb (fun type => includes type content) types.

End Classifier.
Export Classifier.

(** ** Extractor configuration *)

Module Options.

Record SseChatCompatibleOptions := {
  streamBuilder : option (Response -> AbortController -> result (option Stream));
  contentExtractor : option (JsVal -> result JsVal);
  fullContentExtractor : option (JsVal -> result JsVal);
  errorExtractor : option (JsVal -> result JsVal);
}.

(** The object [{}]. *)
Definition no_options : SseChatCompatibleOptions :=
  {| streamBuilder := None; contentExtractor := None;
     fullContentExtractor := None; errorExtractor := None |}.

(** [d?.choices?.at(0)?.delta?.content] *)
Definition default_contentExtractor (d : JsVal) : result JsVal :=
  chain d (fun d =>
    choices ← get d "choices";
    chain choices (fun choices =>
      first ← at0 choices;
      chain first (fun first =>
        delta ← get first "delta";
        chain delta (fun delta => get delta "content")))).

(** [d.choices?.at(0)?.message.content] *)
Definition default_fullContentExtractor (d : JsVal) : result JsVal :=
  choices ← get d "choices";
  chain choices (fun choices =>
    first ← at0 choices;
    chain first (fun first =>
      message ← get first "message";
      get message "content")).

(** [d.error?.message] *)
Definition default_errorExtractor (d : JsVal) : result JsVal :=
  error ← get d "error";
  chain error (fun error => get error "message").

Section Defaulting.
(** [new Stream(r, c)], of the module [./stream]. *)
Variable newStream : Response -> AbortController -> result Stream.

Definition default_streamBuilder (r : Response) (c : AbortController)
  : result (option Stream) :=
  stream ← newStream r c; mret (Some stream).

(** [f || g] on a function-valued property: [g] when [f] is absent. *)
Definition or_else {A} (f : option A) (g : A) : option A :=
  match f with
  | Some f => Some f
  | None => Some g
  end.

Definition fixOpenAICompatibleOptions (options : option SseChatCompatibleOptions)
  : SseChatCompatibleOptions :=
  let options := match options with Some o => o | None => no_options end in
  {| streamBuilder := or_else (streamBuilder options) default_streamBuilder;
     contentExtractor := or_else (contentExtractor options) default_contentExtractor;
     fullContentExtractor :=
       or_else (fullContentExtractor options) default_fullContentExtractor;
     errorExtractor := or_else (errorExtractor options) default_errorExtractor |}.
End Defaulting.

End Options.
Export Options.

(** ** The stream consumer *)

Module StreamConsumer.

(** The local variables of [streamHandler], the number of readings of
    [Date.now()] taken so far, and the texts handed to [onStream], the
    latest first. *)
Record Locals := {
  contentFull : jsstring;
  lengthDelta : Z;
  updateStep : Z;
  lastUpdateTime : Z;
  lastStreamText : jsstring;
  readings : nat;
  delivered : list jsstring;
}.

Definition newline : jsstring := [10%N].

Section Handler.
Context {T : Type}.
(** [ENV.TELEGRAM_MIN_STREAM_INTERVAL], of the module [#/config]. *)
Variable TELEGRAM_MIN_STREAM_INTERVAL : Z.
(** [now k] is what the call of [Date.now()] after [k] earlier ones
    returns. *)
Variable now : nat -> Z.
(** A [string | null] is [Some] string or [None]. *)
Variable contentExtractor : T -> result (option jsstring).
Variable onStream : option (jsstring -> result unit).

(** Lines 57 to 61. *)
Definition initial : Locals :=
  {| contentFull := []; lengthDelta := 0; updateStep := 50;
     lastUpdateTime := now 0; lastStreamText := []; readings := 1;
     delivered := [] |}.

(** [await onStream?.(text)] *)
Definition deliver (text : jsstring) (st : Locals) : Locals * option JsError :=
  match onStream with
  | None => (st, None)
  | Some sink =>
      let st :=
        {| contentFull := contentFull st; lengthDelta := lengthDelta st;
           updateStep := updateStep st; lastUpdateTime := lastUpdateTime st;
           lastStreamText := lastStreamText st; readings := readings st;
           delivered := text :: delivered st |} in
      match sink text with
      | Ret _ => (st, None)
      | Throw e => (st, Some e)
      end
  end.

(** Lines 78 to 84: the flush. *)
Definition flush (lastUpdateTime : Z) (readings : nat) (st : Locals)
  : Locals * option JsError :=
  let lengthDelta := 0%Z in
  let updateStep := (updateStep st + 20)%Z in
  let displayText := stripThinkingContent (contentFull st) in
  if bool_decide (displayText ≠ []) && bool_decide (displayText ≠ lastStreamText st)
  then
    deliver (displayText ++ newline ++ js "...")
      {| contentFull := contentFull st; lengthDelta := lengthDelta;
         updateStep := updateStep; lastUpdateTime := lastUpdateTime;
         lastStreamText := displayText; readings := readings;
         delivered := delivered st |}
  else
    ({| contentFull := contentFull st; lengthDelta := lengthDelta;
        updateStep := updateStep; lastUpdateTime := lastUpdateTime;
        lastStreamText := lastStreamText st; readings := readings;
        delivered := delivered st |}, None).

(** One turn of the loop; [Some e] when the turn throws [e]. *)
Definition turn (st : Locals) (part : T) : Locals * option JsError :=
  match contentExtractor part with
  | Throw e => (st, Some e)
  | Ret None | Ret (Some []) => (st, None)
  | Ret (Some textPart) =>
      let st :=
        {| contentFull := contentFull st ++ textPart;
           lengthDelta := (lengthDelta st + Z.of_nat (length textPart))%Z;
           updateStep := updateStep st; lastUpdateTime := lastUpdateTime st;
           lastStreamText := lastStreamText st; readings := readings st;
           delivered := delivered st |} in
      if (updateStep st <? lengthDelta st)%Z then
        if (0 <? TELEGRAM_MIN_STREAM_INTERVAL)%Z then
          let delta := (now (readings st) - lastUpdateTime st)%Z in
          if (delta <? TELEGRAM_MIN_STREAM_INTERVAL)%Z then
            ({| contentFull := contentFull st; lengthDelta := lengthDelta st;
                updateStep := updateStep st; lastUpdateTime := lastUpdateTime st;
                lastStreamText := lastStreamText st; readings := S (readings st);
                delivered := delivered st |}, None)
          else flush (now (S (readings st))) (S (S (readings st))) st
        else flush (lastUpdateTime st) (readings st) st
      else (st, None)
  end.

(** [for await (const part of stream)]: the turns in order, until one
    throws or the iteration ends or fails. *)
Fixpoint consume (parts : list T) (failure : option JsError) (st : Locals)
  : Locals * option JsError :=
  match parts with
  | [] => (st, failure)
  | part :: rest =>
      match turn st part with
      | (st, None) => consume rest failure st
      | (st, Some e) => (st, Some e)
      end
  end.

(** The result of the call and the texts handed to [onStream], in the
    order of the calls. *)
Definition streamHandler (stream : AsyncIterable T) : result jsstring * list jsstring :=
  let '(st, thrown) := consume (frames stream) (failure stream) initial in
  let contentFull :=
    match thrown with
    | Some e => contentFull st ++ newline ++ js "Error: " ++ message e
    | None => contentFull st
    end in
  (Ret (stripThinkingContent contentFull), rev (delivered st)).
End Handler.

End StreamConsumer.
Export StreamConsumer.

(** ** The response mapper *)

Module Mapper.

(** What a value is as the [string | null] the stream consumer declares
    for a delta: a string, or nothing for a falsy value.  A truthy value
    that is not a string has no reading. *)
Definition asTextPart (v : JsVal) : option (option jsstring) :=
  match v with
  | JStr s => Some (Some s)
  | _ => if truthy v then None else Some None
  end.

Definition typed (extractor : JsVal -> result JsVal) (d : JsVal)
  : result (option jsstring) :=
  v ← extractor d; mret (default None (asTextPart v)).

Definition wellTyped (extractor : JsVal -> result JsVal) (d : JsVal) : bool :=
  match extractor d with
  | Ret v => bool_decide (is_Some (asTextPart v))
  | Throw _ => true
  end.

(** [f?.(x)] *)
Definition call_opt (f : option (JsVal -> result JsVal)) (x : JsVal) : result JsVal :=
  match f with
  | Some f => f x
  | None => Ret JUndefined
  end.

Section Mapper.
Variable newStream : Response -> AbortController -> result Stream.
Variable NumberToString : float -> jsstring.
Variable TELEGRAM_MIN_STREAM_INTERVAL : Z.
Variable now : nat -> Z.

(** Lines 102 to 114. *)
Definition jsonAnswer (resp : Response) (options : SseChatCompatibleOptions)
  : result jsstring :=
  if negb (isJsonResponse resp) then
    Throw (mkError KError (js (statusText resp)))
  else
    result ← json resp;
    if negb (truthy result) then
      Throw (mkError KError (js "Empty response"))
    else
      failed ← call_opt (errorExtractor options) result;
      if truthy failed then
        reason ← call_opt (errorExtractor options) result;
        Throw (newError NumberToString (js_or reason (JStr (js "Unknown error"))))
      else
        content ← call_opt (fullContentExtractor options) result;
        match js_or content (JStr []) with
        | JStr text => Ret (stripThinkingContent text)
        | _ => Throw (mkError KTypeError (js "text.replace is not a function"))
        end.

(** The result of the call and the texts handed to [onStream].  [None]
    when the content extractor yields, on a frame of the stream, a
    truthy value that is not a string: [streamHandler] declares its
    deltas as [string | null], and the model follows that type. *)
Definition mapResponseToAnswer (resp : Response) (controller : option AbortController)
  (options : option SseChatCompatibleOptions)
  (onStream : option (jsstring -> result unit))
  : option (result jsstring * list jsstring) :=
  let options := fixOpenAICompatibleOptions newStream options in
  if bool_decide (is_Some onStream) && ok resp && isEventStreamResponse resp then
    let built :=
      match streamBuilder options with
      | Some build => build resp (default {| aborted := false |} controller)
      | None => Ret None
      end in
    match built with
    | Throw e => Some (Throw e, [])
    | Ret None => Some (Throw (mkError KError (js "Stream builder error")), [])
    | Ret (Some stream) =>
        let extractor :=
          match contentExtractor options with
          | Some extractor => extractor
          | None => fun _ =>
              Throw (mkError KTypeError (js "contentExtractor is not a function"))
          end in
        if forallb (wellTyped extractor) (frames stream) then
          Some (streamHandler TELEGRAM_MIN_STREAM_INTERVAL now (typed extractor)
                  onStream stream)
        else None
    end
  else Some (jsonAnswer resp options, []).
End Mapper.

End Mapper.
Export Mapper.

(** ** The request orchestrator *)

Module Orchestrator.

(** The timers of the event loop: the identifiers of the one-shot timers
    that are armed, and the next identifier [setTimeout] hands out (never
    0, so an identifier is truthy). *)
Record Timers := {
  armed : list nat;
  fresh : nat;
}.

Definition setTimeout (w : Timers) : nat * Timers :=
  (S (fresh w), {| armed := S (fresh w) :: armed w; fresh := S (fresh w) |}).

Definition clearTimeout (id : nat) (w : Timers) : Timers :=
  {| armed := filter (fun t => t ≠ id) (armed w); fresh := fresh w |}.

(** The timer [id] elapses and its callback runs: a one-shot timer is no
    longer armed afterwards. *)
Definition elapse (id : nat) (w : Timers) : Timers :=
  {| armed := filter (fun t => t ≠ id) (armed w); fresh := fresh w |}.

(** How the transport answers: what [fetch] settles to when left alone,
    and whether it is still in flight when an armed timeout elapses. *)
Record Transport := {
  settles : result Response;
  outlasts_timeout : bool;
}.

Section Orchestrator.
Variable newStream : Response -> AbortController -> result Stream.
Variable NumberToString : float -> jsstring.
Variable TELEGRAM_MIN_STREAM_INTERVAL : Z.
(** [ENV.CHAT_COMPLETE_API_TIMEOUT], of the module [#/config]. *)
Variable CHAT_COMPLETE_API_TIMEOUT : Z.
Variable now : nat -> Z.

(** The timers after the call, the result of the call and the texts
    handed to [onStream].  [fetch] stands for the call
    [fetch(url, { method, headers, body, signal })] of this request. *)
Definition requestChatCompletions (fetch : Transport)
  (onStream : option (jsstring -> result unit))
  (options : option SseChatCompatibleOptions) (w : Timers)
  : Timers * option (result jsstring * list jsstring) :=
  let controller := {| aborted := false |} in
  let '(timeoutID, w) :=
    if (0 <? CHAT_COMPLETE_API_TIMEOUT)%Z
    then let '(id, w) := setTimeout w in (Some id, w)
    else (None, w) in
  match timeoutID, outlasts_timeout fetch with
  | Some id, true =>
      (* the timer fires, [controller.abort()] runs, [fetch] rejects *)
      (elapse id w,
       Some (Throw (mkError KAbortError (js "The operation was aborted")), []))
  | _, _ =>
      match settles fetch with
      | Throw e => (w, Some (Throw e, []))
      | Ret resp =>
          let w :=
            match timeoutID with
            | Some id => clearTimeout id w
            | None => w
            end in
          (w, mapResponseToAnswer newStream NumberToString
                TELEGRAM_MIN_STREAM_INTERVAL now resp (Some controller)
                options onStream)
      end
  end.
End Orchestrator.

End Orchestrator.
Export Orchestrator.

(** ** What the sanitizer is specified to do

    Tags, spans and the three phases of the sanitizer, stated on texts
    without reference to the matcher. *)

Module SanitizerSpec.
Import Regex.

Definition opening (tag : jsstring) : Prop :=
  tag = js "<think>" \/ tag = js "<thinking>".

Definition closing (tag : jsstring) : Prop :=
  tag = js "</think>" \/ tag = js "</thinking>".

(** [p] is a substring of [s]. *)
Definition occurs (p s : jsstring) : Prop := exists a b, s = a ++ p ++ b.

(** [s] begins with a closing tag. *)
Definition closes_here (s : jsstring) : Prop :=
  exists tag rest, closing tag /\ s = tag ++ rest.

(** [s] begins with a closed span and [rest] follows the span: an opening
    tag of either form, a body, and the first closing tag of either form
    that begins at or after the end of the opening tag. *)
Inductive span_at : jsstring -> jsstring -> Prop :=
| span_intro o body c rest :
    opening o -> closing c ->
    (forall b1 b2, body = b1 ++ b2 -> b2 <> [] -> ~ closes_here (b2 ++ c ++ rest)) ->
    span_at (o ++ body ++ c ++ rest) rest.

(** The closed spans of [s], taken from the left, are dropped and
    everything else is kept. *)
Inductive removes_spans : jsstring -> jsstring -> Prop :=
| removes_nil : removes_spans [] []
| removes_span s rest r :
    span_at s rest -> removes_spans rest r -> removes_spans s r
| removes_keep c s r :
    (forall rest, ~ span_at (c :: s) rest) -> removes_spans s r ->
    removes_spans (c :: s) (c :: r).

(** [r] is [s] up to its leftmost opening tag, or [s] when it has none. *)
Definition truncates (s r : jsstring) : Prop :=
  (r = s /\ forall tag, opening tag -> ~ occurs tag s)
  \/ (exists tag rest, opening tag /\ s = r ++ tag ++ rest
      /\ forall tag' a b, opening tag' -> s = a ++ tag' ++ b -> length r <= length a).

(** [r] is [s] without its leading white space. *)
Definition left_trims (s r : jsstring) : Prop :=
  exists ws, s = ws ++ r
    /\ Forall (fun c => isWhiteSpace c = true) ws
    /\ forall c r', r = c :: r' -> isWhiteSpace c = false.

(** The remainder after an opening tag at the head of [s]. *)
Definition open_tag (s : jsstring) : option jsstring :=
  if startsWith (js "<thinking>") s then Some (drop 10 s)
  else if startsWith (js "<think>") s then Some (drop 7 s)
  else None.

(** The remainder after a closing tag at the head of [s]. *)
Definition close_tag (s : jsstring) : option jsstring :=
  if startsWith (js "</thinking>") s then Some (drop 11 s)
  else if startsWith (js "</think>") s then Some (drop 8 s)
  else None.

(** The remainder after the first closing tag in [s]. *)
Fixpoint first_close (s : jsstring) : option jsstring :=
  match close_tag s with
  | Some rest => Some rest
  | None =>
      match s with
      | _ :: s' => first_close s'
      | [] => None
      end
  end.

(** The remainder after a closed span at the head of [s]. *)
Definition block_rest (s : jsstring) : option jsstring :=
  open_tag s ≫= first_close.

(** The sanitizer as the comment of line 6 and the specification word
    it: a closed span is [<think>...</think>] or
    [<thinking>...</thinking>], the closing tag being of the form of the
    opening one. *)
Definition re_block_paired : pattern :=
  alt (seq (lit (js "<think>")) (fun k => lazy_any (lit (js "</think>") k)))
      (seq (lit (js "<thinking>")) (fun k => lazy_any (lit (js "</thinking>") k))).

Definition sanitize_paired (text : jsstring) : jsstring :=
  let text := replace_all re_block_paired text in
  let text :=
    match search re_open text with
    | Some index => substring0 index text
    | None => text
    end in
  trimStart text.

(** The second phase of the sanitizer, lines 9 to 12. *)
Definition truncate (s : jsstring) : jsstring :=
  match search re_open s with
  | Some index => substring0 index s
  | None => s
  end.

End SanitizerSpec.
Export SanitizerSpec.

(** ** What the classifier is specified to do *)

Module ClassifierSpec.

(** [c] is the character [p] of a pattern, in either case. *)
Definition sameLetter (c p : N) : Prop :=
  c = p \/ ((97 <= p)%N /\ (p <= 122)%N /\ (c + 32)%N = p).

(** Some substring of [v] is [p] up to the case of its letters. *)
Definition containsIgnoringCase (p v : jsstring) : Prop :=
  exists a w b, v = a ++ w ++ b /\ Forall2 sameLetter w p.

(** A pattern character that lower-casing leaves alone and that no
    character outside ASCII lower-cases to. *)
Definition plain (p : N) : bool :=
  ((p <? 128) && negb ((65 <=? p) && (p <=? 90)))%N.

End ClassifierSpec.
Export ClassifierSpec.

(** ** What the stream consumer accumulates *)

Module StreamSpec.

(** The deltas of the frames, one after the other, a frame without text
    adding nothing. *)
Fixpoint collected {T} (contentExtractor : T -> result (option jsstring))
  (parts : list T) : jsstring :=
  match parts with
  | [] => []
  | part :: rest =>
      match contentExtractor part with
      | Ret (Some text) => text ++ collected contentExtractor rest
      | _ => collected contentExtractor rest
      end
  end.

(** No call of the sink rejects. *)
Definition sink_resolves (onStream : option (jsstring -> result unit)) : Prop :=
  forall sink text, onStream = Some sink -> sink text = Ret tt.

(** The locals after a delta of [n] code units that causes no flush. *)
Definition grown (st : Locals) (text : jsstring) (n : Z) : Locals :=
  {| contentFull := contentFull st ++ text; lengthDelta := lengthDelta st + n;
     updateStep := updateStep st; lastUpdateTime := lastUpdateTime st;
     lastStreamText := lastStreamText st; readings := readings st;
     delivered := delivered st |}.

(** A frame whose delta is a text of ten code units. *)
Definition ten {T} (contentExtractor : T -> result (option jsstring))
  (part : T) (text : jsstring) : Prop :=
  contentExtractor part = Ret (Some text) /\ length text = 10.

End StreamSpec.
Export StreamSpec.

(** ** Concrete inputs *)

Module Fixtures.

(** A stream constructor whose streams carry no frame. *)
Definition silent (r : Response) (c : AbortController) : result Stream :=
  Ret {| frames := []; failure := None |}.

(** A stand-in for Number::toString. *)
Definition numeral (f : float) : jsstring := js "0".

Definition clock (k : nat) : Z := 0.

Definition sink (text : jsstring) : result unit := Ret tt.

(** A response with the status line [200 OK] or [502 Bad Gateway]. *)
Definition respond (isOk : bool) (contentType : string) (body : JsVal) : Response :=
  {| ok := isOk; statusText := if isOk then "OK" else "Bad Gateway";
     headers := {[ "content-type" := contentType ]}; json := Ret body |}.

(** [{"choices":[{"message":{"content":"<think>x</think>hi"}}]}] *)
Definition greeting : JsVal :=
  JObj [(js "choices",
         JArr [JObj [(js "message",
                      JObj [(js "content", JStr (js "<think>x</think>hi"))])]])].

(** The frame [{"choices":[{"delta":{"content":text}}]}]. *)
Definition delta_frame (text : string) : JsVal :=
  JObj [(js "choices", JArr [JObj [(js "delta", JObj [(js "content", JStr (js text))])]])].

(** A stream constructor whose streams carry a reasoning block, an
    answer, and a frame without choices. *)
Definition talkative (r : Response) (c : AbortController) : result Stream :=
  Ret {| frames := [delta_frame "<think>plan"; delta_frame "</think>"; JObj [];
                    delta_frame "Hello"; delta_frame " world"];
         failure := None |}.

End Fixtures.

(** ** Frames and bodies of the OpenAI shape, and well-kept timers *)

Module Shapes.

(** The frame [{"choices":[{"delta":{"content":text}}]}]. *)
Definition deltaFrame (text : jsstring) : JsVal :=
  JObj [(js "choices", JArr [JObj [(js "delta", JObj [(js "content", JStr text)])]])].

(** The body [{"choices":[{"message":{"content":text}}]}]. *)
Definition messageBody (text : jsstring) : JsVal :=
  JObj [(js "choices", JArr [JObj [(js "message", JObj [(js "content", JStr text)])]])].

(** The stream constructor whose streams carry one delta frame for each
    of the given texts and then end. *)
Definition streamOf (texts : list jsstring) (r : Response) (c : AbortController)
  : result Stream :=
  Ret {| frames := map deltaFrame texts; failure := None |}.

(** Every armed timer has an identifier that [setTimeout] has handed
    out. *)
Definition timers_ok (w : Timers) : Prop :=
  Forall (fun id => id <= fresh w) (armed w).

(** A text handed to the sink: a sanitized text that is not empty,
    followed by a newline and an ellipsis. *)
Definition partial_text (d : jsstring) : Prop :=
  exists shown, d = shown ++ newline ++ js "..." /\ shown <> []
    /\ stripThinkingContent shown = shown.

(** What the locals keep about the sink: every text handed over is a
    partial text, no text was handed over twice in a row, the latest one
    shows [lastStreamText], and nothing was handed over without a sink. *)
Definition sink_log_ok (onStream : option (jsstring -> result unit)) (st : Locals) : Prop :=
  Forall partial_text (delivered st)
  /\ (forall pre d1 d2 post, delivered st = pre ++ d1 :: d2 :: post -> d1 <> d2)
  /\ (forall d older, delivered st = d :: older ->
      d = lastStreamText st ++ newline ++ js "...")
  /\ (onStream = None -> delivered st = []).

(** What the locals keep about the threshold after [n] flushes: the
    threshold has grown [n] times, at most [n] texts were handed over, and
    the [i]-th flush took more than [50 + 20 i] code units. *)
Definition threshold_ok (st : Locals) : Prop :=
  exists n : Z,
    (0 <= n)%Z /\ updateStep st = (50 + 20 * n)%Z /\ (0 <= lengthDelta st)%Z
    /\ (Z.of_nat (length (delivered st)) <= n)%Z
    /\ (51 * n + 10 * n * (n - 1) + lengthDelta st
        <= Z.of_nat (length (contentFull st)))%Z.

(** The locals while nothing has been handed over. *)
Definition quiet (st : Locals) : Prop :=
  (lengthDelta st <= Z.of_nat (length (contentFull st)))%Z
  /\ (50 <= updateStep st)%Z /\ delivered st = [].

(** The locals while no flush has happened: the time of the last update is
    the first reading of the clock, the threshold is the first one and
    nothing has been handed over. *)
Definition waiting (now : nat -> Z) (st : Locals) : Prop :=
  lastUpdateTime st = now 0 /\ updateStep st = 50%Z /\ delivered st = [].

(** A frame the loop skips: its delta is [null] or the empty string. *)
Definition textless {T} (contentExtractor : T -> result (option jsstring)) (part : T)
  : Prop :=
  contentExtractor part = Ret None \/ contentExtractor part = Ret (Some []).


End Shapes.
Export Shapes.

(** * Properties *)

(** ** Matching *)

Module RegexFacts.
Import Regex.

Lemma startsWith_spec p s : startsWith p s = true <-> exists r, s = p ++ r.
Proof.
  revert s; induction p as [|c p IH]; intros s; simpl.
  - split; eauto.
  - destruct s as [|d s].
    + split; [discriminate | intros [r Hr]; discriminate].
    + rewrite andb_true_iff, N.eqb_eq, IH. split.
      * intros [-> [r ->]]. eauto.
      * intros [r Hr]. injection Hr as -> ->. eauto.
Qed.

Lemma startsWith_app p q s :
  startsWith (p ++ q) s = startsWith p s && startsWith q (drop (length p) s).
Proof.
  revert s; induction p as [|c p IH]; intros s; simpl.
  - reflexivity.
  - destruct s as [|d s]; [reflexivity|].
    simpl. rewrite IH, andb_assoc. reflexivity.
Qed.

Lemma startsWith_take p n s : startsWith p (take n s) = true -> startsWith p s = true.
Proof.
  rewrite !startsWith_spec. intros [r Hr].
  exists (r ++ drop n s). rewrite app_assoc, <- Hr. symmetry. apply take_drop.
Qed.

Lemma lit_eq p k s :
  lit p k s = if startsWith p s then k (drop (length p) s) else None.
Proof.
  revert s; induction p as [|c p IH]; intros s; simpl.
  - reflexivity.
  - destruct s as [|d s]; [reflexivity|].
    destruct (c =? d)%N; simpl; [apply IH | reflexivity].
Qed.

Lemma lazy_any_ext k k' s : (forall x, k x = k' x) -> lazy_any k s = lazy_any k' s.
Proof.
  intros E. induction s as [|c s IH]; simpl; rewrite E; [reflexivity|].
  rewrite IH. reflexivity.
Qed.

Lemma replace_from_enough r (P : progresses r) n m s :
  length s < n -> length s < m -> replace_from n r s = replace_from m r s.
Proof.
  revert m s; induction n as [|n IH]; intros m s Hn Hm; [lia|].
  destruct m as [|m]; [lia|]. simpl.
  destruct (match_here r s) as [rest|] eqn:E.
  - apply P in E. apply IH; lia.
  - destruct s as [|c s]; [reflexivity|]. simpl in *. f_equal. apply IH; lia.
Qed.

Lemma replace_all_unfold r (P : progresses r) s :
  replace_all r s =
    match match_here r s with
    | Some rest => replace_all r rest
    | None =>
        match s with
        | c :: s' => c :: replace_all r s'
        | [] => []
        end
    end.
Proof.
  unfold replace_all at 1. simpl.
  destruct (match_here r s) as [rest|] eqn:E.
  - apply P in E. apply replace_from_enough; [exact P | lia..].
  - destruct s as [|c s]; [reflexivity|]. reflexivity.
Qed.

End RegexFacts.

(** ** The sanitizer *)

Module SanitizerFacts.
Import Regex RegexFacts.

Lemma ing_not_gt r : startsWith (js "ing") r = true -> startsWith (js ">") r = false.
Proof.
  intros [x ->]%startsWith_spec. reflexivity.
Qed.

Lemma tag_eq (head : jsstring) k s :
  lit head (opt (lit (js "ing")) (lit (js ">") k)) s =
    (if startsWith (head ++ js "ing" ++ js ">") s
     then Some (drop (length head + 4) s)
     else if startsWith (head ++ js ">") s
          then Some (drop (length head + 1) s)
          else None) ≫= k.
Proof.
  rewrite !startsWith_app, lit_eq. unfold opt. rewrite !lit_eq.
  destruct (startsWith head s); [|reflexivity].
  cbn [andb]. change (length (js "ing")) with 3. change (length (js ">")) with 1.
  rewrite !drop_drop.
  replace (length head + 3 + 1) with (length head + 4) by lia.
  destruct (startsWith (js "ing") (drop (length head) s)) eqn:Eing; cbn [andb].
  - rewrite (ing_not_gt _ Eing).
    destruct (startsWith (js ">") (drop (length head + 3) s)); [|reflexivity].
    cbn [mbind option_bind]. destruct (k _); reflexivity.
  - destruct (startsWith (js ">") (drop (length head) s)); reflexivity.
Qed.

Lemma re_open_eq k s : re_open k s = open_tag s ≫= k.
Proof. apply (tag_eq (js "<think")). Qed.

Lemma re_close_eq k s : re_close k s = close_tag s ≫= k.
Proof. apply (tag_eq (js "</think")). Qed.

Lemma match_open s : match_here re_open s = open_tag s.
Proof. unfold match_here. rewrite re_open_eq. destruct (open_tag s); reflexivity. Qed.

Lemma lazy_close s : lazy_any (re_close Some) s = first_close s.
Proof.
  induction s as [|c s IH]; cbn [lazy_any first_close]; rewrite re_close_eq;
    destruct (close_tag _); cbn [mbind option_bind]; auto.
Qed.

Lemma match_block s : match_here re_block s = block_rest s.
Proof.
  unfold match_here, re_block, seq, block_rest. rewrite re_open_eq.
  destruct (open_tag s); cbn [mbind option_bind]; [apply lazy_close | reflexivity].
Qed.

Lemma open_tag_spec s r :
  open_tag s = Some r <-> exists tag, opening tag /\ s = tag ++ r.
Proof.
  unfold open_tag, opening. split.
  - destruct (startsWith (js "<thinking>") s) eqn:E1.
    + apply startsWith_spec in E1 as [x ->]. intros [= <-]. eauto.
    + destruct (startsWith (js "<think>") s) eqn:E2; [|discriminate].
      apply startsWith_spec in E2 as [x ->]. intros [= <-]. eauto.
  - intros [tag [[-> | ->] ->]]; reflexivity.
Qed.

Lemma close_tag_spec s r :
  close_tag s = Some r <-> exists tag, closing tag /\ s = tag ++ r.
Proof.
  unfold close_tag, closing. split.
  - destruct (startsWith (js "</thinking>") s) eqn:E1.
    + apply startsWith_spec in E1 as [x ->]. intros [= <-]. eauto.
    + destruct (startsWith (js "</think>") s) eqn:E2; [|discriminate].
      apply startsWith_spec in E2 as [x ->]. intros [= <-]. eauto.
  - intros [tag [[-> | ->] ->]]; reflexivity.
Qed.

Lemma close_tag_none s : close_tag s = None <-> ~ closes_here s.
Proof.
  split.
  - intros E [tag [rest [Hc ->]]].
    assert (close_tag (tag ++ rest) = Some rest) as E' by (apply close_tag_spec; eauto).
    congruence.
  - intros H. destruct (close_tag s) as [r|] eqn:E; [|reflexivity].
    apply close_tag_spec in E as [tag [Hc ->]]. exfalso. apply H. exists tag, r. auto.
Qed.

Lemma open_tag_shorter s r : open_tag s = Some r -> length r < length s.
Proof.
  intros [tag [[-> | ->] ->]]%open_tag_spec; rewrite length_app; simpl; lia.
Qed.

Lemma close_tag_shorter s r : close_tag s = Some r -> length r < length s.
Proof.
  intros [tag [[-> | ->] ->]]%close_tag_spec; rewrite length_app; simpl; lia.
Qed.

Lemma first_close_shorter s r : first_close s = Some r -> length r < length s.
Proof.
  induction s as [|c s IH]; simpl.
  - discriminate.
  - destruct (close_tag (c :: s)) eqn:E.
    + intros [= <-]. apply close_tag_shorter in E. exact E.
    + intros H. apply IH in H. lia.
Qed.

Lemma block_rest_shorter s r : block_rest s = Some r -> length r < length s.
Proof.
  unfold block_rest. destruct (open_tag s) as [x|] eqn:E; simpl; [|discriminate].
  intros H. apply first_close_shorter in H. apply open_tag_shorter in E. lia.
Qed.

Lemma re_block_progresses : progresses re_block.
Proof. intros s rest. rewrite match_block. apply block_rest_shorter. Qed.

(** The unfolding equation of the global replacement. *)
Lemma replace_blocks_unfold s :
  replace_all re_block s =
    match block_rest s with
    | Some rest => replace_all re_block rest
    | None =>
        match s with
        | c :: s' => c :: replace_all re_block s'
        | [] => []
        end
    end.
Proof. rewrite (replace_all_unfold _ re_block_progresses), match_block. reflexivity. Qed.

Lemma first_close_unfold s :
  first_close s =
    match close_tag s with
    | Some rest => Some rest
    | None =>
        match s with
        | _ :: s' => first_close s'
        | [] => None
        end
    end.
Proof. destruct s; reflexivity. Qed.

Lemma first_close_spec r rest :
  first_close r = Some rest <->
  exists body c, closing c /\ r = body ++ c ++ rest
    /\ forall b1 b2, body = b1 ++ b2 -> b2 <> [] -> ~ closes_here (b2 ++ c ++ rest).
Proof.
  split.
  - revert rest. induction r as [|x r IH]; intros rest; rewrite first_close_unfold.
    + destruct (close_tag []) as [r'|] eqn:E; [|discriminate].
      apply close_tag_shorter in E. simpl in E. lia.
    + destruct (close_tag (x :: r)) as [r'|] eqn:E.
      * intros [= ->]. apply close_tag_spec in E as [c [Hc E]].
        exists [], c. split; [exact Hc|]. split; [exact E|].
        intros b1 b2 Hb Hne. symmetry in Hb. apply app_eq_nil in Hb as [_ ->].
        congruence.
      * intros H. apply IH in H as [body [c [Hc [-> Hmin]]]].
        exists (x :: body), c. split; [exact Hc|]. split; [reflexivity|].
        intros b1 b2 Hb Hne. destruct b1 as [|y b1].
        -- simpl in Hb. subst b2. apply close_tag_none. exact E.
        -- injection Hb as <- Hb. apply (Hmin b1 b2 Hb Hne).
  - intros [body [c [Hc [-> Hmin]]]]. induction body as [|x body IH].
    + rewrite first_close_unfold. simpl.
      assert (close_tag (c ++ rest) = Some rest) as -> by (apply close_tag_spec; eauto).
      reflexivity.
    + rewrite first_close_unfold.
      assert (close_tag ((x :: body) ++ c ++ rest) = None) as ->.
      { apply close_tag_none. apply (Hmin [] (x :: body)); [reflexivity | discriminate]. }
      simpl. apply IH. intros b1 b2 Hb Hne. apply (Hmin (x :: b1) b2); [|exact Hne].
      simpl. f_equal. exact Hb.
Qed.

(** A span at the head of a text is what the block pattern matches. *)
Lemma span_at_iff s rest : span_at s rest <-> block_rest s = Some rest.
Proof.
  unfold block_rest. split.
  - intros [o body c rest' Ho Hc Hmin].
    assert (open_tag (o ++ body ++ c ++ rest') = Some (body ++ c ++ rest')) as ->
      by (apply open_tag_spec; eauto).
    cbn [mbind option_bind]. apply first_close_spec. eauto 6.
  - destruct (open_tag s) as [r1|] eqn:E; cbn [mbind option_bind]; [|discriminate].
    apply open_tag_spec in E as [o [Ho ->]].
    intros [body [c [Hc [-> Hmin]]]]%first_close_spec.
    constructor; assumption.
Qed.

Lemma removes_spans_replace t : removes_spans t (replace_all re_block t).
Proof.
  remember (length t) as n eqn:Hn. revert t Hn.
  induction n as [n IH] using lt_wf_ind. intros t ->.
  rewrite replace_blocks_unfold. destruct (block_rest t) as [rest|] eqn:E.
  - apply removes_span with rest; [apply span_at_iff; exact E|].
    apply (IH (length rest)); [apply block_rest_shorter; exact E | reflexivity].
  - destruct t as [|c t]; [constructor|].
    apply removes_keep.
    + intros rest H%span_at_iff. congruence.
    + apply (IH (length t)); [simpl; lia | reflexivity].
Qed.

Lemma removes_spans_iff t r : removes_spans t r <-> r = replace_all re_block t.
Proof.
  split; [|intros ->; apply removes_spans_replace].
  induction 1 as [|s rest r H _ IH|c s r H _ IH]; rewrite replace_blocks_unfold.
  - reflexivity.
  - apply span_at_iff in H. rewrite H. exact IH.
  - destruct (block_rest (c :: s)) as [rest|] eqn:E.
    + apply span_at_iff in E. destruct (H _ E).
    + f_equal. exact IH.
Qed.

Lemma search_unfold s :
  search re_open s =
    match open_tag s with
    | Some _ => Some 0
    | None =>
        match s with
        | _ :: s' => S <$> search re_open s'
        | [] => None
        end
    end.
Proof. destruct s; cbn [search]; rewrite match_open; reflexivity. Qed.

Lemma search_some s i :
  search re_open s = Some i ->
  exists tag rest, opening tag /\ s = take i s ++ tag ++ rest /\ length (take i s) = i
    /\ forall tag' a b, opening tag' -> s = a ++ tag' ++ b -> i <= length a.
Proof.
  revert i. induction s as [|c s IH]; intros i; rewrite search_unfold.
  - destruct (open_tag []) eqn:E; [|discriminate].
    apply open_tag_shorter in E. simpl in E. lia.
  - destruct (open_tag (c :: s)) as [rest|] eqn:E.
    + intros [= <-]. apply open_tag_spec in E as [tag [Ho E]].
      exists tag, rest. repeat split; [exact Ho | exact E | intros; lia].
    + destruct (search re_open s) as [j|] eqn:Es; [|discriminate].
      intros [= <-]. destruct (IH j eq_refl) as [tag [rest [Ho [Hs [Hlen Hmin]]]]].
      exists tag, rest. split; [exact Ho|]. split; [simpl; f_equal; exact Hs|].
      split; [simpl; f_equal; exact Hlen|].
      intros tag' a b Ho' Hab. destruct a as [|x a].
      * exfalso. assert (open_tag (c :: s) = Some b) as E'
          by (apply open_tag_spec; exists tag'; split; [exact Ho' | exact Hab]).
        congruence.
      * injection Hab as _ Hab. simpl. apply le_n_S. apply (Hmin tag' a b Ho' Hab).
Qed.

Lemma search_none s :
  search re_open s = None <-> forall tag, opening tag -> ~ occurs tag s.
Proof.
  split.
  - induction s as [|c s IH]; rewrite search_unfold.
    + intros _ tag Ho [a [b Hab]].
      destruct a; destruct Ho as [-> | ->]; discriminate.
    + destruct (open_tag (c :: s)) as [rest|] eqn:E; [discriminate|].
      destruct (search re_open s) as [j|] eqn:Es; [discriminate|].
      intros _ tag Ho [a [b Hab]]. destruct a as [|x a].
      * assert (open_tag (c :: s) = Some b) as E'
          by (apply open_tag_spec; exists tag; split; [exact Ho | exact Hab]).
        congruence.
      * injection Hab as _ Hab. apply (IH eq_refl tag Ho). exists a, b. exact Hab.
  - intros H. destruct (search re_open s) as [i|] eqn:E; [|reflexivity].
    apply search_some in E as [tag [rest [Ho [Hs _]]]].
    destruct (H tag Ho). exists (take i s), rest. exact Hs.
Qed.

Lemma truncates_iff s r : truncates s r <-> r = truncate s.
Proof.
  unfold truncates, truncate, substring0. split.
  - intros [[-> H] | [tag [rest [Ho [Hs Hmin]]]]].
    + apply search_none in H. rewrite H. reflexivity.
    + destruct (search re_open s) as [i|] eqn:E.
      * destruct (search_some _ _ E) as [tag' [rest' [Ho' [Hs' [Hlen Hmin']]]]].
        assert (length r <= length (take i s)) as H1 by (apply (Hmin tag' _ rest' Ho' Hs')).
        assert (i <= length r) as H2 by (apply (Hmin' tag r rest Ho Hs)).
        assert (i = length r) as -> by lia.
        rewrite Hs at 1. rewrite take_app_length. reflexivity.
      * destruct (proj1 (search_none s) E tag Ho). exists r, rest. exact Hs.
  - intros ->. destruct (search re_open s) as [i|] eqn:E.
    + right. destruct (search_some _ _ E) as [tag [rest [Ho [Hs [Hlen Hmin]]]]].
      exists tag, rest. split; [exact Ho|]. split; [exact Hs|].
      intros tag' a b Ho' Hab. rewrite Hlen. apply (Hmin tag' a b Ho' Hab).
    + left. split; [reflexivity|]. apply search_none. exact E.
Qed.

Lemma left_trims_iff s r : left_trims s r <-> r = trimStart s.
Proof.
  unfold left_trims. split.
  - intros [ws [-> [Hws Hr]]]. induction Hws as [|c ws Hc _ IH]; simpl.
    + destruct r as [|c r]; [reflexivity|]. simpl. rewrite (Hr c r eq_refl). reflexivity.
    + rewrite Hc. exact IH.
  - intros ->. induction s as [|c s IH]; simpl.
    + exists []. repeat split; [constructor | discriminate].
    + destruct (isWhiteSpace c) eqn:Hc.
      * destruct IH as [ws [Hs [Hws Hr]]]. exists (c :: ws).
        split; [simpl; f_equal; exact Hs|]. split; [constructor; assumption | exact Hr].
      * exists []. split; [reflexivity|]. split; [constructor|].
        intros c' r' [= <- <-]. exact Hc.
Qed.

Lemma stripThinkingContent_phases t :
  stripThinkingContent t = trimStart (truncate (replace_all re_block t)).
Proof. reflexivity. Qed.

(** The output has no opening tag left. *)
Lemma open_tag_take n s : open_tag (take n s) <> None -> open_tag s <> None.
Proof.
  unfold open_tag.
  destruct (startsWith (js "<thinking>") (take n s)) eqn:E1.
  - apply startsWith_take in E1. rewrite E1. discriminate.
  - destruct (startsWith (js "<think>") (take n s)) eqn:E2; [|congruence].
    apply startsWith_take in E2. rewrite E2.
    destruct (startsWith (js "<thinking>") s); discriminate.
Qed.

Lemma search_tail c s : search re_open (c :: s) = None -> search re_open s = None.
Proof.
  rewrite search_unfold. destruct (open_tag (c :: s)); [discriminate|].
  destruct (search re_open s); [discriminate | reflexivity].
Qed.

Lemma search_take s i : search re_open s = Some i -> search re_open (take i s) = None.
Proof.
  revert i. induction s as [|c s IH]; intros i; rewrite search_unfold.
  - destruct (open_tag []); [|discriminate]. intros [= <-]. reflexivity.
  - destruct (open_tag (c :: s)) as [rest|] eqn:E.
    + intros [= <-]. reflexivity.
    + destruct (search re_open s) as [j|] eqn:Es; [|discriminate].
      intros [= <-]. cbn [take firstn]. rewrite search_unfold.
      destruct (open_tag (c :: take j s)) eqn:E'.
      * exfalso. apply (open_tag_take (S j) (c :: s)); [|exact E].
        cbn [take firstn]. rewrite E'. discriminate.
      * rewrite (IH j eq_refl). reflexivity.
Qed.

Lemma search_truncate s : search re_open (truncate s) = None.
Proof.
  unfold truncate, substring0. destruct (search re_open s) as [i|] eqn:E.
  - apply search_take. exact E.
  - exact E.
Qed.

Lemma search_trimStart s : search re_open s = None -> search re_open (trimStart s) = None.
Proof.
  induction s as [|c s IH]; simpl; [auto|].
  destruct (isWhiteSpace c); [|auto].
  intros H. apply IH. apply (search_tail c). exact H.
Qed.

Lemma replace_all_no_open s : search re_open s = None -> replace_all re_block s = s.
Proof.
  induction s as [|c s IH]; intros H; rewrite replace_blocks_unfold; unfold block_rest.
  - reflexivity.
  - assert (open_tag (c :: s) = None) as ->.
    { rewrite search_unfold in H. destruct (open_tag (c :: s)); [discriminate | reflexivity]. }
    cbn [mbind option_bind]. f_equal. apply IH. apply (search_tail c). exact H.
Qed.

Lemma trimStart_head s c r : trimStart s = c :: r -> isWhiteSpace c = false.
Proof.
  induction s as [|d s IH]; simpl; [discriminate|].
  destruct (isWhiteSpace d) eqn:E; [exact IH|]. intros [= <- <-]. exact E.
Qed.

Lemma trimStart_fixed s :
  (forall c r, s = c :: r -> isWhiteSpace c = false) -> trimStart s = s.
Proof.
  destruct s as [|c s]; [reflexivity|]. intros H. simpl.
  rewrite (H c s eq_refl). reflexivity.
Qed.

Lemma search_strip t : search re_open (stripThinkingContent t) = None.
Proof. rewrite stripThinkingContent_phases. apply search_trimStart, search_truncate. Qed.

End SanitizerFacts.

(** ** Claims about the sanitizer *)

Module MixedTagFacts.
Import Regex RegexFacts SanitizerFacts.

(** The code unit of [<], with which every tag begins. *)
Lemma startsWith_other p c s : c <> 60%N -> startsWith (60%N :: p) (c :: s) = false.
Proof.
  intros Hc. cbn [startsWith]. destruct (N.eqb_spec 60 c) as [E|_]; [|reflexivity].
  destruct Hc. symmetry. exact E.
Qed.

Lemma open_tag_other c s : c <> 60%N -> open_tag (c :: s) = None.
Proof.
  intros Hc. unfold open_tag.
  change (js "<thinking>") with (60%N :: js "thinking>").
  change (js "<think>") with (60%N :: js "think>").
  rewrite !(startsWith_other _ c s Hc). reflexivity.
Qed.

Lemma close_tag_other c s : c <> 60%N -> close_tag (c :: s) = None.
Proof.
  intros Hc. unfold close_tag.
  change (js "</thinking>") with (60%N :: js "/thinking>").
  change (js "</think>") with (60%N :: js "/think>").
  rewrite !(startsWith_other _ c s Hc). reflexivity.
Qed.

Lemma search_skip b s :
  60%N ∉ b -> search re_open s = None -> search re_open (b ++ s) = None.
Proof.
  intros Hb Hs. induction b as [|c b IH]; [exact Hs|].
  apply not_elem_of_cons in Hb as [Hc Hb].
  rewrite search_unfold. cbn [app]. rewrite (open_tag_other c _ (not_eq_sym Hc)).
  rewrite (IH Hb). reflexivity.
Qed.

Lemma first_close_skip a s : 60%N ∉ a -> first_close (a ++ s) = first_close s.
Proof.
  intros Ha. induction a as [|c a IH]; [reflexivity|].
  apply not_elem_of_cons in Ha as [Hc Ha].
  rewrite first_close_unfold. cbn [app]. rewrite (close_tag_other c _ (not_eq_sym Hc)).
  apply IH, Ha.
Qed.

Lemma lazy_any_skip p k a s :
  60%N ∉ a -> lazy_any (lit (60%N :: p) k) (a ++ s) = lazy_any (lit (60%N :: p) k) s.
Proof.
  intros Ha. induction a as [|c a IH]; [reflexivity|].
  apply not_elem_of_cons in Ha as [Hc Ha].
  cbn [app lazy_any]. rewrite lit_eq, (startsWith_other _ c _ (not_eq_sym Hc)).
  apply IH, Ha.
Qed.

Lemma trimStart_before b c s :
  isWhiteSpace c = false -> trimStart (b ++ c :: s) = trimStart b ++ c :: s.
Proof.
  intros Hc. induction b as [|d b IH]; cbn [app trimStart].
  - rewrite Hc. reflexivity.
  - destruct (isWhiteSpace d); [exact IH | reflexivity].
Qed.

(** The block pattern on a [<think>] block with a [</thinking>] inside. *)
Lemma block_rest_mixed a rest :
  60%N ∉ a ->
  block_rest (js "<think>" ++ a ++ js "</thinking>" ++ rest) = Some rest.
Proof.
  intros Ha. unfold block_rest.
  assert (open_tag (js "<think>" ++ a ++ js "</thinking>" ++ rest)
          = Some (a ++ js "</thinking>" ++ rest)) as ->.
  { apply open_tag_spec. exists (js "<think>"). split; [left|]; reflexivity. }
  cbn [mbind option_bind]. rewrite (first_close_skip a _ Ha), first_close_unfold.
  assert (close_tag (js "</thinking>" ++ rest) = Some rest) as ->.
  { apply close_tag_spec. exists (js "</thinking>"). split; [right|]; reflexivity. }
  reflexivity.
Qed.

(** The paired pattern on the same block: it runs to the [</think>]. *)
Lemma match_paired_mixed a b :
  60%N ∉ a -> 60%N ∉ b ->
  match_here re_block_paired
    (js "<think>" ++ a ++ js "</thinking>" ++ b ++ js "</think>") = Some [].
Proof.
  intros Ha Hb. unfold match_here, re_block_paired, alt, seq.
  rewrite lit_eq.
  assert (startsWith (js "<think>")
            (js "<think>" ++ a ++ js "</thinking>" ++ b ++ js "</think>") = true) as ->.
  { apply startsWith_spec. eexists. reflexivity. }
  change (drop (length (js "<think>"))
            (js "<think>" ++ a ++ js "</thinking>" ++ b ++ js "</think>"))
    with (a ++ js "</thinking>" ++ b ++ js "</think>").
  change (js "</think>") with (60%N :: js "/think>") at 1.
  rewrite (lazy_any_skip _ _ a _ Ha).
  change (js "</thinking>" ++ b ++ js "</think>")
    with (60%N :: js "/thinking>" ++ b ++ js "</think>").
  cbn [lazy_any].
  assert (lit (60%N :: js "/think>") Some (60%N :: js "/thinking>" ++ b ++ js "</think>")
          = None) as -> by reflexivity.
  rewrite (app_assoc (js "/thinking>") b (js "</think>")).
  rewrite (lazy_any_skip _ _ (js "/thinking>" ++ b) _).
  - reflexivity.
  - intros Hin. apply elem_of_app in Hin as [Hin | Hin]; [|exact (Hb Hin)].
    revert Hin. refine (bool_decide_eq_false_1 (60%N ∈ js "/thinking>") _). reflexivity.
Qed.

(** The body of that block holds no [</think>]. *)
Lemma includes_skip p a s :
  60%N ∉ a -> includes (60%N :: p) (a ++ s) = includes (60%N :: p) s.
Proof.
  intros Ha. induction a as [|c a IH]; [reflexivity|].
  apply not_elem_of_cons in Ha as [Hc Ha].
  cbn [app includes]. rewrite (startsWith_other _ c _ (not_eq_sym Hc)).
  apply IH, Ha.
Qed.

Lemma body_mixed a b :
  60%N ∉ a -> 60%N ∉ b ->
  includes (js "</think>") (a ++ js "</thinking>" ++ b) = false.
Proof.
  intros Ha Hb. change (js "</think>") with (60%N :: js "/think>").
  rewrite (includes_skip _ a _ Ha).
  change (js "</thinking>" ++ b) with (60%N :: js "/thinking>" ++ b).
  cbn [includes].
  assert (startsWith (60%N :: js "/think>") (60%N :: js "/thinking>" ++ b) = false) as ->
    by reflexivity.
  rewrite <- (app_nil_r b), app_assoc, includes_skip; [reflexivity|].
  intros Hin. apply elem_of_app in Hin as [Hin | Hin]; [|exact (Hb Hin)].
  revert Hin. refine (bool_decide_eq_false_1 (60%N ∈ js "/thinking>") _). reflexivity.
Qed.

End MixedTagFacts.

(** C1 on the code: a closing tag [</thinking>] inside a [<think>...</think>]
    block ends the block.  For texts [a] and [b] without [<], the text
    [<think>a</thinking>b</think>] is one block opened by [<think>] and
    closed by the only [</think>] in it; removing the blocks whose closing
    tag has the form of the opening one leaves nothing, while
    [stripThinkingContent] returns [b], left-trimmed, and the closing tag:
    part of what the block encloses. *)
Theorem stripThinkingContent_mixed_close : forall a b,
  60%N ∉ a -> 60%N ∉ b ->
  stripThinkingContent (js "<think>" ++ a ++ js "</thinking>" ++ b ++ js "</think>")
  = trimStart b ++ js "</think>"
  /\ includes (js "</think>") (a ++ js "</thinking>" ++ b) = false
  /\ sanitize_paired (js "<think>" ++ a ++ js "</thinking>" ++ b ++ js "</think>") = [].
Proof.
  intros a b Ha Hb. split; [|split].
  - rewrite SanitizerFacts.stripThinkingContent_phases, SanitizerFacts.replace_blocks_unfold.
    rewrite (MixedTagFacts.block_rest_mixed a _ Ha).
    assert (Regex.search re_open (b ++ js "</think>") = None) as Hnone
      by (apply (MixedTagFacts.search_skip b _ Hb); reflexivity).
    rewrite (SanitizerFacts.replace_all_no_open _ Hnone).
    unfold truncate. rewrite Hnone.
    apply (MixedTagFacts.trimStart_before b 60%N (js "/think>")). reflexivity.
  - exact (MixedTagFacts.body_mixed a b Ha Hb).
  - unfold sanitize_paired, Regex.replace_all. cbn [Regex.replace_from].
    rewrite (MixedTagFacts.match_paired_mixed a b Ha Hb).
    destruct (length _); reflexivity.
Qed.

(** The text [<think>a</thinking>b</think>]. *)
Lemma stripThinkingContent_mixed_tags :
  stripThinkingContent (js "<think>a</thinking>b</think>") = js "b</think>"
  /\ includes (js "</think>") (js "a</thinking>b") = false
  /\ sanitize_paired (js "<think>a</thinking>b</think>") = [].
Proof.
  apply (stripThinkingContent_mixed_close (js "a") (js "b"));
    [refine (bool_decide_eq_false_1 (60%N ∈ js "a") _)
    | refine (bool_decide_eq_false_1 (60%N ∈ js "b") _)]; reflexivity.
Defined.

(** C9: [stripThinkingContent] is idempotent; its output contains no
    opening tag [<think>] or [<thinking>] and does not start with white
    space. *)
Theorem stripThinkingContent_idempotent : forall t,
  stripThinkingContent (stripThinkingContent t) = stripThinkingContent t
  /\ (forall tag, opening tag -> ~ occurs tag (stripThinkingContent t))
  /\ (forall c r, stripThinkingContent t = c :: r -> isWhiteSpace c = false).
Proof.
  intros t.
  assert (forall c r, stripThinkingContent t = c :: r -> isWhiteSpace c = false) as Hhead.
  { intros c r. rewrite SanitizerFacts.stripThinkingContent_phases.
    apply SanitizerFacts.trimStart_head. }
  pose proof (SanitizerFacts.search_strip t) as Hnone.
  split; [|split; [apply SanitizerFacts.search_none; exact Hnone | exact Hhead]].
  rewrite SanitizerFacts.stripThinkingContent_phases at 1.
  rewrite (SanitizerFacts.replace_all_no_open _ Hnone).
  unfold truncate. rewrite Hnone. apply SanitizerFacts.trimStart_fixed. exact Hhead.
Qed.

(** ** Claims about the classifier *)

Module ClassifierFacts.

Lemma includes_spec p s : includes p s = true <-> exists a b, s = a ++ p ++ b.
Proof.
  induction s as [|c s IH]; cbn [includes]; rewrite orb_true_iff, RegexFacts.startsWith_spec.
  - split.
    + intros [[r Hr] | H]; [|discriminate]. exists [], r. exact Hr.
    + intros [a [b H]]. left. destruct a; [|discriminate]. exists b. exact H.
  - rewrite IH. split.
    + intros [[r Hr] | [a [b H]]]; [exists [], r; exact Hr|].
      exists (c :: a), b. simpl. f_equal. exact H.
    + intros [a [b H]]. destruct a as [|x a].
      * left. exists b. exact H.
      * right. injection H as _ H. exists a, b. exact H.
Qed.

Lemma lowerUnit_plain c p :
  plain p = true -> lowerUnit c = p <-> sameLetter c p.
Proof.
  unfold plain, lowerUnit, sameLetter. intros Hp.
  apply andb_true_iff in Hp as [Hlt Hup]. apply N.ltb_lt in Hlt.
  apply negb_true_iff, andb_false_iff in Hup.
  assert (~ (65 <= p /\ p <= 90)%N) as Hup'
    by (intros [H1 H2]; destruct Hup as [H | H]; apply N.leb_gt in H; lia).
  destruct ((65 <=? c) && (c <=? 90) || (192 <=? c) && (c <=? 222) && negb (c =? 215))%N
    eqn:E.
  - apply orb_true_iff in E as [E | E].
    + apply andb_true_iff in E as [E1 E2]. apply N.leb_le in E1, E2. lia.
    + apply andb_true_iff in E as [E _]. apply andb_true_iff in E as [E1 E2].
      apply N.leb_le in E1, E2. lia.
  - apply orb_false_iff in E as [E _]. apply andb_false_iff in E.
    assert (~ (65 <= c /\ c <= 90)%N)
      by (intros [H1 H2]; destruct E as [H | H]; apply N.leb_gt in H; lia).
    lia.
Qed.

Lemma toLowerCase_plain w p :
  forallb plain p = true -> toLowerCase w = p <-> Forall2 sameLetter w p.
Proof.
  unfold toLowerCase. revert p. induction w as [|c w IH]; intros p Hp.
  - split; [intros <-; constructor | intros H; inversion H; reflexivity].
  - destruct p as [|d p].
    + split; [discriminate | intros H; inversion H].
    + simpl in Hp. apply andb_true_iff in Hp as [Hd Hp]. simpl. split.
      * intros [= H1 H2]. constructor; [apply lowerUnit_plain; assumption|].
        apply IH; assumption.
      * intros H. inversion H as [|? ? ? ? H1 H2]; subst. f_equal.
        -- apply lowerUnit_plain; assumption.
        -- apply IH; assumption.
Qed.

Lemma includes_toLowerCase p v :
  forallb plain p = true ->
  includes p (toLowerCase v) = true <-> containsIgnoringCase p v.
Proof.
  intros Hp. rewrite includes_spec. unfold containsIgnoringCase. split.
  - intros [a' [b' H]]. unfold toLowerCase in H.
    apply map_eq_app in H as [a [r [-> [Ha H]]]].
    apply map_eq_app in H as [w [b [-> [Hw Hb]]]].
    exists a, w, b. split; [reflexivity|]. apply toLowerCase_plain; assumption.
  - intros [a [w [b [-> H]]]]. apply toLowerCase_plain in H; [|exact Hp].
    exists (toLowerCase a), (toLowerCase b). unfold toLowerCase in *.
    rewrite !map_app, H. reflexivity.
Qed.

End ClassifierFacts.

(** C7: both predicates look for their media types in the content-type
    header without regard to the case of letters, and are false when the
    header is absent; [isJsonResponse] holds exactly when the value contains
    [application/json], [isEventStreamResponse] exactly when it contains
    [application/stream+json] or [text/event-stream]; a response with
    [content-type: text/event-stream; charset=utf-8] is an event stream and
    not JSON. *)
Theorem classifier_spec : forall resp : Response,
  (isJsonResponse resp = true <->
   exists v, headers resp !! "content-type" = Some v
     /\ containsIgnoringCase (js "application/json") (js v))
  /\ (isEventStreamResponse resp = true <->
      exists v, headers resp !! "content-type" = Some v
        /\ (containsIgnoringCase (js "application/stream+json") (js v)
            \/ containsIgnoringCase (js "text/event-stream") (js v)))
  /\ (headers resp !! "content-type" = None ->
      isJsonResponse resp = false /\ isEventStreamResponse resp = false)
  /\ (headers resp !! "content-type" = Some "text/event-stream; charset=utf-8" ->
      isEventStreamResponse resp = true /\ isJsonResponse resp = false).
Proof.
  intros resp. unfold isJsonResponse, isEventStreamResponse, headers_get.
  destruct (headers resp !! "content-type") as [v|] eqn:E; cbn [fmap option_fmap option_map].
  - split; [|split; [|split]].
    + rewrite ClassifierFacts.includes_toLowerCase by reflexivity. split.
      * intros H. exists v. auto.
      * intros [v' [[= <-] H]]. exact H.
    + cbn [existsb]. rewrite orb_false_r, orb_true_iff.
      rewrite !ClassifierFacts.includes_toLowerCase by reflexivity. split.
      * intros H. exists v. auto.
      * intros [v' [[= <-] H]]. exact H.
    + discriminate.
    + intros [= ->]. split; reflexivity.
  - split; [|split; [|split]].
    + split; [discriminate | intros [v [H _]]; discriminate].
    + split; [discriminate | intros [v [H _]]; discriminate].
    + intros _. split; reflexivity.
    + discriminate.
Qed.

(** The response of C7's example, classified through [classifier_spec]. *)
Lemma classifier_event_stream :
  isEventStreamResponse
    (Fixtures.respond true "text/event-stream; charset=utf-8" JNull) = true
  /\ isJsonResponse
       (Fixtures.respond true "text/event-stream; charset=utf-8" JNull) = false.
Proof.
  apply (proj2 (proj2 (proj2
    (classifier_spec (Fixtures.respond true "text/event-stream; charset=utf-8" JNull))))).
  vm_compute. reflexivity.
Defined.

(** ** Claims about the extractor configuration *)

(** C8: defaulting is idempotent; for every input, [null] included, the
    result has all four functions; a function the caller supplied is kept
    as it is, and an absent one is replaced by the built-in default. *)
Theorem fixOpenAICompatibleOptions_idempotent :
  forall (newStream : Response -> AbortController -> result Stream)
         (options : option SseChatCompatibleOptions),
  let given := default no_options options in
  let fixed := fixOpenAICompatibleOptions newStream options in
  fixOpenAICompatibleOptions newStream (Some fixed) = fixed
  /\ (is_Some (streamBuilder fixed) /\ is_Some (contentExtractor fixed)
      /\ is_Some (fullContentExtractor fixed) /\ is_Some (errorExtractor fixed))
  /\ ((forall f, streamBuilder given = Some f -> streamBuilder fixed = Some f)
      /\ (forall f, contentExtractor given = Some f -> contentExtractor fixed = Some f)
      /\ (forall f, fullContentExtractor given = Some f -> fullContentExtractor fixed = Some f)
      /\ (forall f, errorExtractor given = Some f -> errorExtractor fixed = Some f))
  /\ ((streamBuilder given = None ->
       streamBuilder fixed = Some (default_streamBuilder newStream))
      /\ (contentExtractor given = None ->
          contentExtractor fixed = Some default_contentExtractor)
      /\ (fullContentExtractor given = None ->
          fullContentExtractor fixed = Some default_fullContentExtractor)
      /\ (errorExtractor given = None ->
          errorExtractor fixed = Some default_errorExtractor)).
Proof.
  intros newStream options given fixed. subst given fixed.
  unfold fixOpenAICompatibleOptions.
  destruct options as [[builder content full error]|]; cbn.
  - destruct builder, content, full, error; cbn;
      repeat split; eauto; intros; congruence.
  - repeat split; eauto; intros; congruence.
Qed.

(** An options object with a content extractor of the caller's and nothing
    else, defaulted once and twice. *)
Lemma fixOpenAICompatibleOptions_custom :
  let custom := fun _ : JsVal => Ret (JStr (js "x")) in
  let options :=
    Some {| streamBuilder := None; contentExtractor := Some custom;
            fullContentExtractor := None; errorExtractor := None |} in
  let fixed := fixOpenAICompatibleOptions Fixtures.silent options in
  fixOpenAICompatibleOptions Fixtures.silent (Some fixed) = fixed
  /\ contentExtractor fixed = Some custom
  /\ errorExtractor fixed = Some default_errorExtractor.
Proof.
  intros custom options fixed.
  destruct (fixOpenAICompatibleOptions_idempotent Fixtures.silent options)
    as [Hidem [_ [[_ [Hkept _]] [_ [_ [_ Hdefault]]]]]].
  split; [exact Hidem|]. split; [apply Hkept | apply Hdefault]; reflexivity.
Defined.

(** ** Claims about the default extractors and the JSON path *)

(** C4, as stated, fails on the body [{}]: the choices path is absent from
    it, yet the default full-content extractor does not fail, it yields
    [undefined], and the mapper answers with the empty string. *)
Lemma fullContentExtractor_without_choices :
  default_fullContentExtractor (JObj []) = Ret JUndefined
  /\ mapResponseToAnswer Fixtures.silent Fixtures.numeral 0 Fixtures.clock
       (Fixtures.respond true "application/json" (JObj [])) None None None
     = Some (Ret [], []).
Proof. split; vm_compute; reflexivity. Qed.

(** C4, amended: the default full-content extractor reads the content of
    the message of the first choice (so the mapper answers [hi] for the body
    of the example).  Unlike the delta extractor it fails when the first
    choice is there but has no message, where the delta extractor yields
    [undefined] for a first choice without delta, and when the body itself
    is [null] or [undefined].  When [choices] is absent or [null], or has no
    first element, it does not fail: it yields [undefined]. *)
Theorem default_fullContentExtractor_spec :
  (forall d choices first message,
     get d "choices" = Ret choices -> nullish choices = false ->
     at0 choices = Ret first -> nullish first = false ->
     get first "message" = Ret message ->
     default_fullContentExtractor d = get message "content"
     /\ (nullish message = true -> exists e, default_fullContentExtractor d = Throw e)
     /\ (forall delta, get first "delta" = Ret delta -> nullish delta = true ->
         default_contentExtractor d = Ret JUndefined))
  /\ mapResponseToAnswer Fixtures.silent Fixtures.numeral 0 Fixtures.clock
       (Fixtures.respond true "application/json" Fixtures.greeting) None None None
     = Some (Ret (js "hi"), [])
  /\ (forall d, nullish d = true ->
      (exists e, default_fullContentExtractor d = Throw e)
      /\ default_contentExtractor d = Ret JUndefined)
  /\ (forall d choices, get d "choices" = Ret choices -> nullish choices = true ->
      default_fullContentExtractor d = Ret JUndefined)
  /\ (forall d choices first, get d "choices" = Ret choices -> nullish choices = false ->
      at0 choices = Ret first -> nullish first = true ->
      default_fullContentExtractor d = Ret JUndefined).
Proof.
  split; [|split; [vm_compute; reflexivity|split; [|split]]].
  - intros d choices first message Hc Hnc Hf Hnf Hm.
    assert (nullish d = false) as Hd by (destruct d; try reflexivity; discriminate).
    unfold default_fullContentExtractor, default_contentExtractor, chain.
    rewrite Hd, Hc. cbn [mbind result_bind]. rewrite Hnc, Hf. cbn [mbind result_bind].
    rewrite Hnf, Hm. cbn [mbind result_bind]. split; [reflexivity|]. split.
    + intros Hn. destruct message; try discriminate; eexists; reflexivity.
    + intros delta Hdelta Hn. rewrite Hdelta. cbn [mbind result_bind]. rewrite Hn.
      reflexivity.
  - intros d Hd. destruct d; try discriminate; (split; [eexists|]; reflexivity).
  - intros d choices Hc Hn. unfold default_fullContentExtractor, chain.
    rewrite Hc. cbn [mbind result_bind]. rewrite Hn. reflexivity.
  - intros d choices first Hc Hnc Hf Hnf. unfold default_fullContentExtractor, chain.
    rewrite Hc. cbn [mbind result_bind]. rewrite Hnc, Hf. cbn [mbind result_bind].
    rewrite Hnf. reflexivity.
Qed.

(** The bodies [{"choices":[{}]}], on which only the full-content extractor
    fails, and [{"choices":[]}], on which neither does. *)
Lemma default_fullContentExtractor_cases :
  (exists e, default_fullContentExtractor (JObj [(js "choices", JArr [JObj []])]) = Throw e)
  /\ default_contentExtractor (JObj [(js "choices", JArr [JObj []])]) = Ret JUndefined
  /\ default_fullContentExtractor (JObj [(js "choices", JArr [])]) = Ret JUndefined.
Proof.
  destruct default_fullContentExtractor_spec as [Hread [_ [_ [_ Hempty]]]].
  destruct (Hread (JObj [(js "choices", JArr [JObj []])]) (JArr [JObj []]) (JObj [])
              JUndefined eq_refl eq_refl eq_refl eq_refl eq_refl) as [_ [Hfail Hdelta]].
  split; [apply Hfail; reflexivity|].
  split; [apply (Hdelta JUndefined); reflexivity|].
  apply (Hempty (JObj [(js "choices", JArr [])]) (JArr []) JUndefined); reflexivity.
Defined.

Module MapperFacts.

(** The streaming path on a short stream: no flush, the sanitized text. *)
Example mapResponseToAnswer_streams :
  mapResponseToAnswer Fixtures.talkative Fixtures.numeral 0 Fixtures.clock
    (Fixtures.respond true "text/event-stream" JNull) None None (Some Fixtures.sink)
  = Some (Ret (js "Hello world"), []).
Proof. vm_compute. reflexivity. Qed.

(** Off the streaming path the mapper answers from the JSON body and
    never calls [onStream]. *)
Lemma mapResponseToAnswer_json newStream NumberToString interval now resp controller
      options onStream :
  bool_decide (is_Some onStream) && ok resp && isEventStreamResponse resp = false ->
  mapResponseToAnswer newStream NumberToString interval now resp controller options onStream
  = Some (jsonAnswer NumberToString resp (fixOpenAICompatibleOptions newStream options), []).
Proof. intros H. unfold mapResponseToAnswer. rewrite H. reflexivity. Qed.

Lemma newError_text NumberToString text :
  newError NumberToString (JStr text) = mkError KError text.
Proof. reflexivity. Qed.

End MapperFacts.

(** C6, as stated, fails on a body whose [error.message] is the empty
    string: the error extractor yields a value that is present and falsy,
    and the call does not fail with [Unknown error], it answers [hi]. *)
Lemma mapResponseToAnswer_empty_message :
  default_errorExtractor
    (JObj [(js "error", JObj [(js "message", JStr [])]);
           (js "choices", JArr [JObj [(js "message", JObj [(js "content", JStr (js "hi"))])]])])
  = Ret (JStr [])
  /\ truthy (JStr []) = false
  /\ mapResponseToAnswer Fixtures.silent Fixtures.numeral 0 Fixtures.clock
       (Fixtures.respond true "application/json"
          (JObj [(js "error", JObj [(js "message", JStr [])]);
                 (js "choices",
                  JArr [JObj [(js "message", JObj [(js "content", JStr (js "hi"))])]])]))
       None None None
     = Some (Ret (js "hi"), []).
Proof. repeat split; vm_compute; reflexivity. Qed.

(** C6, amended: off the streaming path, a response that is not JSON fails
    with its status text; a parsed body that is falsy ([null], [false], [0],
    the empty string) fails with [Empty response]; and when the error
    extractor yields a truthy value on the parsed body the call fails with
    what [throw new Error(value)] throws, an error with exactly that message
    when the value is a string, whatever the full-content extractor is,
    which is not applied.  When the error extractor yields a falsy value,
    present or not, the fallback [Unknown error] is not used and the call
    does not fail at this step: it applies the full-content extractor,
    answers with the sanitized content when that is a string or falsy, and
    fails only as that step fails. *)
Theorem mapResponseToAnswer_json_failures :
  forall newStream NumberToString interval now resp controller options onStream,
  bool_decide (is_Some onStream) && ok resp && isEventStreamResponse resp = false ->
  let answer :=
    mapResponseToAnswer newStream NumberToString interval now resp controller options
      onStream in
  let extractors := fixOpenAICompatibleOptions newStream options in
  (isJsonResponse resp = false ->
   answer = Some (Throw (mkError KError (js (statusText resp))), []))
  /\ (forall body, isJsonResponse resp = true -> json resp = Ret body ->
      truthy body = false ->
      answer = Some (Throw (mkError KError (js "Empty response")), []))
  /\ (forall body reason, isJsonResponse resp = true -> json resp = Ret body ->
      truthy body = true ->
      call_opt (errorExtractor extractors) body = Ret reason -> truthy reason = true ->
      answer = Some (Throw (newError NumberToString reason), [])
      /\ (forall text, reason = JStr text ->
          answer = Some (Throw (mkError KError text), []))
      /\ (forall others, errorExtractor others = errorExtractor extractors ->
          jsonAnswer NumberToString resp others = Throw (newError NumberToString reason)))
  /\ (forall body reason, isJsonResponse resp = true -> json resp = Ret body ->
      truthy body = true ->
      call_opt (errorExtractor extractors) body = Ret reason -> truthy reason = false ->
      (forall content text,
         call_opt (fullContentExtractor extractors) body = Ret content ->
         js_or content (JStr []) = JStr text ->
         answer = Some (Ret (stripThinkingContent text), []))
      /\ (forall e, call_opt (fullContentExtractor extractors) body = Throw e ->
          answer = Some (Throw e, []))
      /\ (forall content,
         call_opt (fullContentExtractor extractors) body = Ret content ->
         (forall text, js_or content (JStr []) <> JStr text) ->
         answer = Some (Throw (mkError KTypeError (js "text.replace is not a function")), []))).
Proof.
  intros newStream NumberToString interval now resp controller options onStream Hpath
         answer extractors.
  subst answer extractors. rewrite MapperFacts.mapResponseToAnswer_json by exact Hpath.
  unfold jsonAnswer. split; [|split; [|split]].
  - intros ->. reflexivity.
  - intros body -> -> Hfalsy. cbn [negb mbind result_bind]. rewrite Hfalsy. reflexivity.
  - intros body reason -> -> Htruthy Hcall Hreason. cbn [negb mbind result_bind].
    rewrite Htruthy, Hcall. cbn [negb mbind result_bind]. rewrite Hreason.
    unfold js_or. rewrite Hreason. split; [reflexivity|]. split.
    + intros text ->. reflexivity.
    + intros others ->. rewrite Hcall. cbn [mbind result_bind]. rewrite Hreason.
      reflexivity.
  - intros body reason -> -> Htruthy Hcall Hreason. cbn [negb mbind result_bind].
    rewrite Htruthy, Hcall. cbn [negb mbind result_bind]. rewrite Hreason.
    split; [|split].
    + intros content text -> Htext. cbn [mbind result_bind]. rewrite Htext. reflexivity.
    + intros e ->. reflexivity.
    + intros content -> Hother. cbn [mbind result_bind].
      destruct (js_or content (JStr [])) as [| | | |text| |]; try reflexivity.
      destruct (Hother text eq_refl).
Qed.

(** A JSON response whose body carries [{"error":{"message":"bad key"}}]
    next to a well-formed list of choices fails with [bad key]. *)
Lemma mapResponseToAnswer_bad_key :
  mapResponseToAnswer Fixtures.silent Fixtures.numeral 0 Fixtures.clock
    (Fixtures.respond true "application/json"
       (JObj [(js "error", JObj [(js "message", JStr (js "bad key"))]);
              (js "choices", JArr [JObj []])]))
    None None None
  = Some (Throw (mkError KError (js "bad key")), []).
Proof.
  refine (proj1 (proj2 (proj1 (proj2 (proj2
    (mapResponseToAnswer_json_failures Fixtures.silent Fixtures.numeral 0 Fixtures.clock
       (Fixtures.respond true "application/json"
          (JObj [(js "error", JObj [(js "message", JStr (js "bad key"))]);
                 (js "choices", JArr [JObj []])]))
       None None None eq_refl)))
    _ (JStr (js "bad key")) _ eq_refl eq_refl _ eq_refl)) (js "bad key") eq_refl);
    vm_compute; reflexivity.
Defined.

(** C10, as stated, fails on a response that is not ok and whose
    content type names both an event stream and JSON: the call does not fail
    with the status text, it answers from the JSON body. *)
Lemma mapResponseToAnswer_both_types :
  isEventStreamResponse
    (Fixtures.respond false "text/event-stream, application/json" Fixtures.greeting) = true
  /\ ok (Fixtures.respond false "text/event-stream, application/json" Fixtures.greeting)
     = false
  /\ mapResponseToAnswer Fixtures.silent Fixtures.numeral 0 Fixtures.clock
       (Fixtures.respond false "text/event-stream, application/json" Fixtures.greeting)
       None None (Some Fixtures.sink)
     = Some (Ret (js "hi"), []).
Proof. repeat split; vm_compute; reflexivity. Qed.

(** C10, amended: for every response that classifies as an event stream but
    is not ok, even when a sink is supplied, the mapper does not take the
    streaming path: the sink is never invoked and the call answers as the
    JSON path does; when the content type does not also contain
    [application/json] the call fails with the status text. *)
Theorem mapResponseToAnswer_stream_not_ok :
  forall newStream NumberToString interval now resp controller options onStream,
  isEventStreamResponse resp = true -> ok resp = false ->
  mapResponseToAnswer newStream NumberToString interval now resp controller options onStream
  = Some (jsonAnswer NumberToString resp (fixOpenAICompatibleOptions newStream options), [])
  /\ (isJsonResponse resp = false ->
      mapResponseToAnswer newStream NumberToString interval now resp controller options
        onStream
      = Some (Throw (mkError KError (js (statusText resp))), [])).
Proof.
  intros newStream NumberToString interval now resp controller options onStream _ Hok.
  rewrite MapperFacts.mapResponseToAnswer_json
    by (rewrite Hok, andb_false_r; reflexivity).
  split; [reflexivity|]. intros Hjson. unfold jsonAnswer. rewrite Hjson. reflexivity.
Qed.

(** A gateway error sent as an event stream, with a sink supplied. *)
Lemma mapResponseToAnswer_stream_not_ok_example :
  mapResponseToAnswer Fixtures.silent Fixtures.numeral 0 Fixtures.clock
    (Fixtures.respond false "text/event-stream" JNull) None None (Some Fixtures.sink)
  = Some (Throw (mkError KError (js "Bad Gateway")), []).
Proof.
  apply (mapResponseToAnswer_stream_not_ok Fixtures.silent Fixtures.numeral 0 Fixtures.clock
           (Fixtures.respond false "text/event-stream" JNull) None None
           (Some Fixtures.sink)); vm_compute; reflexivity.
Defined.

(** ** Claims about the request orchestrator *)

(** C3 on the code: with a positive timeout, when [fetch] settles before the
    timeout elapses the timer is cleared if [fetch] resolved, and is still
    armed after the call if [fetch] rejected. *)
Theorem requestChatCompletions_timer :
  forall newStream NumberToString interval timeout now fetch onStream options w,
  (0 < timeout)%Z -> outlasts_timeout fetch = false ->
  (forall resp, settles fetch = Ret resp ->
     S (fresh w) ∉ armed (fst (requestChatCompletions newStream NumberToString interval
                                 timeout now fetch onStream options w)))
  /\ (forall e, settles fetch = Throw e ->
      requestChatCompletions newStream NumberToString interval timeout now fetch onStream
        options w
      = ({| armed := S (fresh w) :: armed w; fresh := S (fresh w) |}, Some (Throw e, []))).
Proof.
  intros newStream NumberToString interval timeout now fetch onStream options w Ht Hrace.
  unfold requestChatCompletions. apply Z.ltb_lt in Ht. rewrite Ht. cbn [setTimeout].
  rewrite Hrace. split.
  - intros resp ->. cbn [fst clearTimeout armed].
    intros [H _]%list_elem_of_filter. apply H. reflexivity.
  - intros e ->. reflexivity.
Qed.

(** A request with a timeout of 1000 ms whose transport fails at once with
    a network error: the timer 1 is left armed. *)
Lemma requestChatCompletions_leak :
  requestChatCompletions Fixtures.silent Fixtures.numeral 0 1000 Fixtures.clock
    {| settles := Throw (mkError KTypeError (js "fetch failed"));
       outlasts_timeout := false |}
    None None {| armed := []; fresh := 0 |}
  = ({| armed := [1]; fresh := 1 |},
     Some (Throw (mkError KTypeError (js "fetch failed")), [])).
Proof.
  apply (requestChatCompletions_timer Fixtures.silent Fixtures.numeral 0 1000 Fixtures.clock
           {| settles := Throw (mkError KTypeError (js "fetch failed"));
              outlasts_timeout := false |}
           None None {| armed := []; fresh := 0 |}); reflexivity.
Defined.

(** ** Claims about the stream consumer *)

Module StreamFacts.

(** Case analysis on every condition of the goal. *)
Ltac split_ifs :=
  repeat match goal with
         | |- context [if ?b then _ else _] => destruct b
         end.

Section Facts.
Context {T : Type}.
Variable interval : Z.
Variable now : nat -> Z.
Variable contentExtractor : T -> result (option jsstring).
Variable onStream : option (jsstring -> result unit).

Lemma deliver_contentFull text st :
  contentFull (fst (deliver onStream text st)) = contentFull st.
Proof. unfold deliver. destruct onStream as [sink|]; [destruct (sink text)|]; reflexivity. Qed.

Lemma deliver_resolves text st : sink_resolves onStream -> snd (deliver onStream text st) = None.
Proof.
  intros H. unfold deliver. destruct onStream as [sink|] eqn:E; [|reflexivity].
  rewrite (H sink text eq_refl). reflexivity.
Qed.

Lemma flush_contentFull time k st :
  contentFull (fst (flush onStream time k st)) = contentFull st.
Proof.
  unfold flush. destruct (_ && _); [rewrite deliver_contentFull|]; reflexivity.
Qed.

Lemma flush_resolves time k st : sink_resolves onStream -> snd (flush onStream time k st) = None.
Proof.
  intros H. unfold flush. destruct (_ && _); [apply deliver_resolves; exact H|].
  reflexivity.
Qed.

Lemma turn_contentFull st part delta :
  contentExtractor part = Ret delta ->
  contentFull (fst (turn interval now contentExtractor onStream st part))
  = contentFull st ++ default [] delta.
Proof.
  intros E. unfold turn. rewrite E.
  destruct delta as [[|c text]|]; cbn [default fst]; [symmetry; apply app_nil_r| |symmetry; apply app_nil_r].
  cbn [contentFull lengthDelta updateStep lastUpdateTime readings].
  split_ifs; rewrite ?flush_contentFull; reflexivity.
Qed.

Lemma turn_resolves st part delta :
  contentExtractor part = Ret delta -> sink_resolves onStream ->
  snd (turn interval now contentExtractor onStream st part) = None.
Proof.
  intros E H. unfold turn. rewrite E.
  destruct delta as [[|c text]|]; [reflexivity| |reflexivity].
  cbn [contentFull lengthDelta updateStep lastUpdateTime readings].
  split_ifs; rewrite ?flush_resolves by exact H; reflexivity.
Qed.

Lemma consume_collected parts st :
  (forall part, In part parts -> exists delta, contentExtractor part = Ret delta) ->
  sink_resolves onStream ->
  exists st',
    (forall rest failure,
       consume interval now contentExtractor onStream (parts ++ rest) failure st
       = consume interval now contentExtractor onStream rest failure st')
    /\ contentFull st' = contentFull st ++ collected contentExtractor parts.
Proof.
  intros Hparts Hsink. revert st. induction parts as [|part parts IH]; intros st.
  - exists st. split; [reflexivity | symmetry; apply app_nil_r].
  - destruct (Hparts part (or_introl eq_refl)) as [delta E].
    pose proof (turn_contentFull st part delta E) as Hfull.
    pose proof (turn_resolves st part delta E Hsink) as Hnone.
    cbn [app consume collected].
    destruct (turn interval now contentExtractor onStream st part) as [st1 thrown].
    cbn [fst snd] in Hfull, Hnone. subst thrown.
    destruct (IH (fun p Hp => Hparts p (or_intror Hp)) st1) as [st' [Hrun Hst']].
    exists st'. split; [exact Hrun|]. rewrite Hst', Hfull, E, <- app_assoc.
    destruct delta; reflexivity.
Qed.

(** The call resolves, with a sanitized text, on every stream. *)
Lemma streamHandler_resolves stream :
  exists text,
    fst (streamHandler interval now contentExtractor onStream stream)
    = Ret (stripThinkingContent text).
Proof.
  unfold streamHandler.
  destruct (consume _ _ _ _ _ _ _) as [st thrown]. eexists. reflexivity.
Qed.
End Facts.

End StreamFacts.

(** C5: [streamHandler] never throws: on every frame sequence it returns a
    sanitized text.  When the frame sequence fails after its frames have
    been consumed, the accumulated text gets a newline, [Error: ] and the
    failure's message appended, and the sanitized result is returned; when
    the sequence ends instead, the sanitized accumulated text is returned,
    and the sink has received the same texts either way.  A failure raised
    while a frame is being processed is handled in the same way, and the
    frames after it are not consumed. *)
Theorem streamHandler_failure :
  forall (T : Type) interval now (contentExtractor : T -> result (option jsstring))
         onStream,
  (forall stream, exists text,
     fst (streamHandler interval now contentExtractor onStream stream)
     = Ret (stripThinkingContent text))
  /\ (forall parts e,
      (forall part, In part parts -> exists delta, contentExtractor part = Ret delta) ->
      sink_resolves onStream ->
      fst (streamHandler interval now contentExtractor onStream
             {| frames := parts; failure := Some e |})
      = Ret (stripThinkingContent
               (collected contentExtractor parts ++ newline ++ js "Error: " ++ message e))
      /\ fst (streamHandler interval now contentExtractor onStream
                {| frames := parts; failure := None |})
         = Ret (stripThinkingContent (collected contentExtractor parts))
      /\ snd (streamHandler interval now contentExtractor onStream
                {| frames := parts; failure := Some e |})
         = snd (streamHandler interval now contentExtractor onStream
                  {| frames := parts; failure := None |}))
  /\ (forall parts part later e ending,
      (forall part, In part parts -> exists delta, contentExtractor part = Ret delta) ->
      sink_resolves onStream ->
      contentExtractor part = Throw e ->
      fst (streamHandler interval now contentExtractor onStream
             {| frames := parts ++ part :: later; failure := ending |})
      = Ret (stripThinkingContent
               (collected contentExtractor parts ++ newline ++ js "Error: " ++ message e))).
Proof.
  intros T interval now contentExtractor onStream.
  split; [apply StreamFacts.streamHandler_resolves|]. split.
  - intros parts e Hparts Hsink. unfold streamHandler. cbn [frames failure].
    destruct (StreamFacts.consume_collected interval now contentExtractor onStream parts
                (initial now) Hparts Hsink) as [st [Hrun Hfull]].
    assert (forall ending,
              consume interval now contentExtractor onStream parts ending (initial now)
              = (st, ending)) as Hend.
    { intros ending. rewrite <- (app_nil_r parts). apply Hrun. }
    rewrite !Hend, Hfull. repeat split.
  - intros parts part later e ending Hparts Hsink Hthrow.
    unfold streamHandler. cbn [frames failure].
    destruct (StreamFacts.consume_collected interval now contentExtractor onStream parts
                (initial now) Hparts Hsink) as [st [Hrun Hfull]].
    rewrite Hrun. cbn [consume]. unfold turn. rewrite Hthrow, Hfull. reflexivity.
Qed.

(** Two frames [ab] and [cd], then a failure [boom]: the answer is the text
    [abcd], a newline and [Error: boom]. *)
Lemma streamHandler_failure_example :
  fst (streamHandler 0 Fixtures.clock (fun text : jsstring => Ret (Some text))
         (Some Fixtures.sink)
         {| frames := [js "ab"; js "cd"];
            failure := Some (mkError KError (js "boom")) |})
  = Ret (js "abcd" ++ newline ++ js "Error: boom").
Proof.
  refine (proj1 (proj1 (proj2 (streamHandler_failure jsstring 0 Fixtures.clock
            (fun text => Ret (Some text)) (Some Fixtures.sink)))
            [js "ab"; js "cd"] (mkError KError (js "boom")) _ _)).
  - intros part _. eexists. reflexivity.
  - intros sink text [= <-]. reflexivity.
Defined.

Module ThresholdFacts.

Section Facts.
Context {T : Type}.
Variable interval : Z.
Variable now : nat -> Z.
Variable contentExtractor : T -> result (option jsstring).
Variable onStream : option (jsstring -> result unit).

Lemma turn_text st part text :
  contentExtractor part = Ret (Some text) -> text <> [] ->
  turn interval now contentExtractor onStream st part =
    let st := grown st text (Z.of_nat (length text)) in
    if (updateStep st <? lengthDelta st)%Z then
      if (0 <? interval)%Z then
        let delta := (now (readings st) - lastUpdateTime st)%Z in
        if (delta <? interval)%Z then
          ({| contentFull := contentFull st; lengthDelta := lengthDelta st;
              updateStep := updateStep st; lastUpdateTime := lastUpdateTime st;
              lastStreamText := lastStreamText st; readings := S (readings st);
              delivered := delivered st |}, None)
        else flush onStream (now (S (readings st))) (S (S (readings st))) st
      else flush onStream (lastUpdateTime st) (readings st) st
    else (st, None).
Proof.
  intros E Hne. unfold turn. rewrite E. destruct text; [congruence | reflexivity].
Qed.

Lemma turn_quiet st part text :
  ten contentExtractor part text -> (lengthDelta st + 10 <= updateStep st)%Z ->
  turn interval now contentExtractor onStream st part = (grown st text 10, None).
Proof.
  intros [E Hlen] Hle. rewrite (turn_text st part text E)
    by (intros ->; discriminate).
  rewrite Hlen. cbn zeta. cbn [grown updateStep lengthDelta].
  change (Z.of_nat 10) with 10%Z.
  destruct (Z.ltb_spec (updateStep st) (lengthDelta st + 10)); [lia | reflexivity].
Qed.

Lemma turn_flush st part text :
  ten contentExtractor part text -> (interval <= 0)%Z -> (updateStep st < lengthDelta st + 10)%Z ->
  turn interval now contentExtractor onStream st part
  = flush onStream (lastUpdateTime st) (readings st) (grown st text 10).
Proof.
  intros [E Hlen] Hoff Hlt. rewrite (turn_text st part text E)
    by (intros ->; discriminate).
  rewrite Hlen. cbn zeta. cbn [grown updateStep lengthDelta lastUpdateTime readings].
  change (Z.of_nat 10) with 10%Z.
  destruct (Z.ltb_spec (updateStep st) (lengthDelta st + 10)); [|lia].
  destruct (Z.ltb_spec 0 interval); [lia | reflexivity].
Qed.

Lemma consume_quiet parts texts rest failure st :
  Forall2 (ten contentExtractor) parts texts ->
  (lengthDelta st + 10 * Z.of_nat (length parts) <= updateStep st)%Z ->
  consume interval now contentExtractor onStream (parts ++ rest) failure st
  = consume interval now contentExtractor onStream rest failure
      (grown st (concat texts) (10 * Z.of_nat (length parts))).
Proof.
  intros H. revert st. induction H as [|part text parts texts Hten _ IH]; intros st Hle.
  - cbn [app concat length]. f_equal. destruct st. unfold grown. cbn.
    rewrite app_nil_r, Z.add_0_r. reflexivity.
  - cbn [app consume]. cbn [length] in Hle.
    rewrite (turn_quiet st part text Hten) by lia.
    rewrite IH by (cbn [grown lengthDelta updateStep]; lia).
    f_equal. unfold grown. cbn [contentFull lengthDelta updateStep lastUpdateTime
      lastStreamText readings delivered concat length].
    rewrite <- app_assoc. f_equal. lia.
Qed.

Lemma deliver_fields text st :
  let st' := fst (deliver onStream text st) in
  updateStep st' = updateStep st /\ lengthDelta st' = lengthDelta st.
Proof.
  unfold deliver. destruct onStream as [sink|]; [destruct (sink text)|]; split; reflexivity.
Qed.

Lemma flush_fields time k st :
  let st' := fst (flush onStream time k st) in
  updateStep st' = (updateStep st + 20)%Z /\ lengthDelta st' = 0%Z.
Proof.
  unfold flush. destruct (_ && _); [|split; reflexivity].
  cbn zeta. destruct (deliver_fields
    (stripThinkingContent (contentFull st) ++ newline ++ js "...")
    {| contentFull := contentFull st; lengthDelta := 0;
       updateStep := updateStep st + 20; lastUpdateTime := time;
       lastStreamText := stripThinkingContent (contentFull st); readings := k;
       delivered := delivered st |}) as [H1 H2].
  split; [exact H1 | exact H2].
Qed.

(** A turn either leaves the threshold and the sink alone, or it
    flushes: the threshold was exceeded, it grows by 20 and the count
    restarts from 0. *)
Lemma turn_threshold st part :
  let st' := fst (turn interval now contentExtractor onStream st part) in
  (updateStep st' = updateStep st /\ delivered st' = delivered st)
  \/ (updateStep st' = (updateStep st + 20)%Z /\ lengthDelta st' = 0%Z
      /\ exists text, contentExtractor part = Ret (Some text)
           /\ (updateStep st < lengthDelta st + Z.of_nat (length text))%Z).
Proof.
  cbn zeta. destruct (contentExtractor part) as [[text|]|e] eqn:E;
    [|unfold turn; rewrite E; left; split; reflexivity..].
  destruct text as [|c text]; [unfold turn; rewrite E; left; split; reflexivity|].
  rewrite (turn_text st part (c :: text) E) by discriminate. cbn zeta.
  set (st1 := grown st (c :: text) (Z.of_nat (length (c :: text)))).
  destruct (Z.ltb_spec (updateStep st1) (lengthDelta st1)) as [Hlt|];
    [|left; split; reflexivity].
  assert (forall time k,
    updateStep (fst (flush onStream time k st1)) = (updateStep st + 20)%Z
    /\ lengthDelta (fst (flush onStream time k st1)) = 0%Z
    /\ exists text', Ret (Some (c :: text)) = Ret (Some text')
         /\ (updateStep st < lengthDelta st + Z.of_nat (length text'))%Z) as Hflush.
  { intros time k. destruct (flush_fields time k st1) as [H1 H2].
    split; [exact H1|]. split; [exact H2|]. exists (c :: text). split; [reflexivity|].
    exact Hlt. }
  destruct (0 <? interval)%Z; [|right; apply Hflush].
  destruct (_ <? interval)%Z; [left; split; reflexivity | right; apply Hflush].
Qed.
Lemma consume_quiet_end parts texts failure st :
  Forall2 (ten contentExtractor) parts texts ->
  (lengthDelta st + 10 * Z.of_nat (length parts) <= updateStep st)%Z ->
  consume interval now contentExtractor onStream parts failure st
  = (grown st (concat texts) (10 * Z.of_nat (length parts)), failure).
Proof.
  intros H Hle. rewrite <- (app_nil_r parts) at 1.
  rewrite (consume_quiet parts texts [] failure st H Hle). reflexivity.
Qed.

Lemma flush_delivered time k st :
  delivered (fst (flush onStream time k st))
  = if bool_decide (stripThinkingContent (contentFull st) <> [])
       && bool_decide (stripThinkingContent (contentFull st) <> lastStreamText st)
    then match onStream with
         | Some _ =>
             (stripThinkingContent (contentFull st) ++ newline ++ js "...")
               :: delivered st
         | None => delivered st
         end
    else delivered st.
Proof.
  unfold flush, deliver. destruct (_ && _); [|reflexivity].
  destruct onStream as [sink|]; [|reflexivity].
  destruct (sink _); reflexivity.
Qed.

Lemma streamHandler_delivered stream :
  snd (streamHandler interval now contentExtractor onStream stream)
  = rev (delivered (fst (consume interval now contentExtractor onStream
                           (frames stream) (failure stream) (initial now)))).
Proof. unfold streamHandler. destruct (consume _ _ _ _ _ _ _). reflexivity. Qed.
(** Ten frames of ten code units each, without time-based throttling: one
    flush, at the sixth frame. *)
Lemma consume_ten parts texts ending :
  (interval <= 0)%Z -> Forall2 (ten contentExtractor) parts texts -> length parts = 10 ->
  let shown := stripThinkingContent (concat (take 6 texts)) in
  let st :=
    fst (consume interval now contentExtractor onStream parts ending (initial now)) in
  updateStep st = 70%Z
  /\ delivered st
     = if bool_decide (shown <> [])
       then match onStream with
            | Some _ => [shown ++ newline ++ js "..."]
            | None => []
            end
       else [].
Proof.
  intros Hoff Hten Hlen shown.
  rewrite <- (take_drop 5 parts) in Hten |- *.
  assert (length (take 5 parts) = 5) as H5 by (rewrite length_take; lia).
  assert (length (drop 5 parts) = 5) as Hrest by (rewrite length_drop; lia).
  destruct (drop 5 parts) as [|part last]; [discriminate|].
  assert (length last = 4) as H4 by (simpl in Hrest; lia). clear Hrest.
  apply Forall2_app_inv_l in Hten as [first [rest [Hfirst [Hrest ->]]]].
  apply Forall2_cons_inv_l in Hrest as [text [texts6 [Hpart [Hlast ->]]]].
  assert (length first = 5) as Hf by (rewrite <- (Forall2_length _ _ _ Hfirst); exact H5).
  assert (shown = stripThinkingContent (concat first ++ text)) as ->.
  { subst shown. f_equal. change 6 with (5 + 1). rewrite <- Hf, take_app_add.
    cbn [take firstn]. rewrite concat_app. cbn [concat]. rewrite app_nil_r. reflexivity. }
  rewrite (consume_quiet _ _ _ _ _ Hfirst) by (rewrite H5; cbn; lia).
  cbn [consume]. rewrite (turn_flush _ part text Hpart Hoff) by (rewrite H5; cbn; lia).
  rewrite H5. change (10 * Z.of_nat 5)%Z with 50%Z.
  set (st4 := grown (initial now) (concat first) 50).
  set (st5 := grown st4 text 10).
  pose proof (flush_fields (lastUpdateTime st4) (readings st4) st5) as Hfields.
  pose proof (flush_delivered (lastUpdateTime st4) (readings st4) st5) as Hdelivered.
  destruct (flush _ _ _ st5) as [st6 thrown]. cbn [fst] in Hfields, Hdelivered.
  destruct Hfields as [Hstep Hcount].
  assert (updateStep st6 = 70%Z) as Hstep' by (rewrite Hstep; reflexivity).
  assert (delivered st6
          = if bool_decide (stripThinkingContent (concat first ++ text) <> [])
            then match onStream with
                 | Some _ =>
                     [stripThinkingContent (concat first ++ text) ++ newline ++ js "..."]
                 | None => []
                 end
            else []) as Hsixth.
  { rewrite Hdelivered. subst st5 st4.
    cbn [grown contentFull lastStreamText delivered initial app].
    repeat case_bool_decide; cbn [andb]; first [reflexivity | contradiction]. }
  destruct thrown as [e|]; cbn [fst]; [split; assumption|].
  rewrite (consume_quiet_end last texts6 ending st6 Hlast) by (rewrite Hstep', Hcount, H4; cbn; lia).
  cbn [fst grown updateStep delivered]. split; assumption.
Qed.
End Facts.

End ThresholdFacts.

(** C2, as stated, fails on ten frames of ten blanks each: the threshold is
    exceeded at the sixth frame, but the sanitized text is empty and the
    sink is not invoked at all. *)
Lemma streamHandler_blank_frames :
  Forall (fun part : jsstring => length part = 10) (replicate 10 (js "          "))
  /\ snd (streamHandler 0 Fixtures.clock (fun text : jsstring => Ret (Some text))
            (Some Fixtures.sink)
            {| frames := replicate 10 (js "          "); failure := None |})
     = [].
Proof. split; [repeat constructor | vm_compute; reflexivity]. Qed.

(** C2, amended: [updateStep] starts at 50; a turn of the loop hands
    nothing to the sink and leaves [updateStep] as it is unless the count of
    code units since the last flush exceeds [updateStep], in which case
    (the time-based check permitting) [updateStep] grows by 20 and the count
    restarts.  So, with time-based throttling disabled, on ten frames of ten
    code units of delta each the sink is invoked at most once, at the sixth
    frame: exactly once, with the sanitized text of the first six deltas
    followed by a newline and [...], when that sanitized text is not empty,
    and not at all when it is empty. *)
Theorem streamHandler_threshold :
  forall (T : Type) interval now (contentExtractor : T -> result (option jsstring)),
  updateStep (initial now) = 50%Z
  /\ (forall onStream st part,
      let st' := fst (turn interval now contentExtractor onStream st part) in
      (updateStep st' = updateStep st /\ delivered st' = delivered st)
      \/ (updateStep st' = (updateStep st + 20)%Z /\ lengthDelta st' = 0%Z
          /\ exists text, contentExtractor part = Ret (Some text)
               /\ (updateStep st < lengthDelta st + Z.of_nat (length text))%Z))
  /\ (forall sink parts texts ending,
      (interval <= 0)%Z ->
      Forall2 (fun part text =>
                 contentExtractor part = Ret (Some text) /\ length text = 10)
              parts texts ->
      length parts = 10 ->
      let shown := stripThinkingContent (concat (take 6 texts)) in
      updateStep (fst (consume interval now contentExtractor (Some sink) parts ending
                         (initial now))) = 70%Z
      /\ snd (streamHandler interval now contentExtractor (Some sink)
                {| frames := parts; failure := ending |})
         = if bool_decide (shown <> []) then [shown ++ newline ++ js "..."] else []).
Proof.
  intros T interval now contentExtractor. split; [reflexivity|].
  split; [intros onStream st part; apply ThresholdFacts.turn_threshold|].
  intros sink parts texts ending Hoff Hten Hlen shown.
  destruct (ThresholdFacts.consume_ten interval now contentExtractor (Some sink)
              parts texts ending Hoff Hten Hlen) as [Hstep Hdelivered].
  split; [exact Hstep|].
  rewrite ThresholdFacts.streamHandler_delivered. cbn [frames failure].
  rewrite Hdelivered. subst shown. destruct (bool_decide _); reflexivity.
Qed.

(** Ten frames [0123456789]: the sink receives one text, the first sixty
    code units followed by a newline and [...]. *)
Lemma streamHandler_ten_frames :
  snd (streamHandler 0 Fixtures.clock (fun text : jsstring => Ret (Some text))
         (Some Fixtures.sink)
         {| frames := replicate 10 (js "0123456789"); failure := None |})
  = [concat (replicate 6 (js "0123456789")) ++ newline ++ js "..."].
Proof.
  refine (proj2 (proj2 (proj2 (streamHandler_threshold jsstring 0 Fixtures.clock
            (fun text => Ret (Some text)))) Fixtures.sink
            (replicate 10 (js "0123456789")) (replicate 10 (js "0123456789")) None
            _ _ _)).
  - reflexivity.
  - repeat constructor.
  - reflexivity.
Defined.

(** * Further properties *)

(** ** The sanitizer on texts with and without tags *)

Module SanitizerMore.
Import Regex RegexFacts SanitizerFacts.

Lemma open_tag_drop s r : open_tag s = Some r -> exists k, r = drop k s.
Proof.
  unfold open_tag. destruct (startsWith (js "<thinking>") s); [intros [= <-]; eauto|].
  destruct (startsWith (js "<think>") s); [intros [= <-]; eauto | discriminate].
Qed.

Lemma close_tag_drop s r : close_tag s = Some r -> exists k, r = drop k s.
Proof.
  unfold close_tag. destruct (startsWith (js "</thinking>") s); [intros [= <-]; eauto|].
  destruct (startsWith (js "</think>") s); [intros [= <-]; eauto | discriminate].
Qed.

Lemma first_close_drop s r : first_close s = Some r -> exists k, r = drop k s.
Proof.
  induction s as [|c s IH]; rewrite first_close_unfold.
  - destruct (close_tag []) eqn:E; [|discriminate]. intros [= <-].
    apply close_tag_drop in E. exact E.
  - destruct (close_tag (c :: s)) eqn:E.
    + intros [= <-]. apply close_tag_drop in E. exact E.
    + intros [k ->]%IH. exists (S k). reflexivity.
Qed.

Lemma block_rest_drop s r : block_rest s = Some r -> exists k, r = drop k s.
Proof.
  unfold block_rest. destruct (open_tag s) as [x|] eqn:E; cbn [mbind option_bind];
    [|discriminate].
  apply open_tag_drop in E as [k ->]. intros [j ->]%first_close_drop.
  exists (k + j). apply drop_drop.
Qed.

Lemma first_close_tail c s : first_close (c :: s) = None -> first_close s = None.
Proof.
  rewrite first_close_unfold. destruct (close_tag (c :: s)); [discriminate | auto].
Qed.

Lemma first_close_none_drop k s : first_close s = None -> first_close (drop k s) = None.
Proof.
  revert s. induction k as [|k IH]; intros s H; [exact H|].
  destruct s as [|c s]; [exact H|]. cbn [drop skipn]. apply IH.
  apply (first_close_tail c). exact H.
Qed.

(** No closing tag occurs in a text exactly when the search for one
    fails. *)
Lemma first_close_none s :
  first_close s = None <-> forall tag, closing tag -> ~ occurs tag s.
Proof.
  split.
  - induction s as [|c s IH]; rewrite first_close_unfold.
    + intros _ tag Hc [a [b Hab]]. destruct a; destruct Hc as [-> | ->]; discriminate.
    + destruct (close_tag (c :: s)) eqn:E; [discriminate|].
      intros H tag Hc [a [b Hab]]. destruct a as [|x a].
      * assert (close_tag (c :: s) = Some b) as E'
          by (apply close_tag_spec; exists tag; split; [exact Hc | exact Hab]).
        congruence.
      * injection Hab as _ Hab. apply (IH H tag Hc). exists a, b. exact Hab.
  - intros H. destruct (first_close s) as [r|] eqn:E; [|reflexivity].
    apply first_close_spec in E as [body [c [Hc [Hs _]]]].
    destruct (H c Hc). exists body, r. exact Hs.
Qed.

(** Without a closing tag nothing is removed. *)
Lemma replace_all_unclosed s : first_close s = None -> replace_all re_block s = s.
Proof.
  induction s as [|c s IH]; intros H; rewrite replace_blocks_unfold.
  - destruct (block_rest []) eqn:E; [|reflexivity].
    apply block_rest_shorter in E. simpl in E. lia.
  - assert (block_rest (c :: s) = None) as ->.
    { unfold block_rest. destruct (open_tag (c :: s)) as [r|] eqn:E; [|reflexivity].
      apply open_tag_drop in E as [k ->]. cbn [mbind option_bind].
      apply first_close_none_drop. exact H. }
    f_equal. apply IH. apply (first_close_tail c). exact H.
Qed.

(** A pattern that has no [<] after its first character cannot begin in a
    text and run over into a [<] that follows the text. *)
Lemma startsWith_before_lt p a s :
  a <> [] -> Forall (fun c => c <> 60%N) (tl p) ->
  startsWith p (a ++ 60%N :: s) = true -> startsWith p a = true.
Proof.
  intros Ha Hp. destruct p as [|c p]; [reflexivity|]. destruct a as [|d a]; [congruence|].
  cbn [tl] in Hp. cbn [app startsWith]. clear Ha.
  intros [Hcd H]%andb_true_iff. rewrite Hcd. cbn [andb]. clear c d Hcd.
  revert a H. induction Hp as [|c p Hc _ IH]; intros a H; [reflexivity|].
  destruct a as [|d a].
  - cbn [app startsWith] in H. apply andb_true_iff in H as [H _].
    apply N.eqb_eq in H. congruence.
  - cbn [app startsWith] in H |- *. apply andb_true_iff in H as [-> H]. apply IH. exact H.
Qed.

Lemma open_tag_before_lt a s :
  a <> [] -> open_tag (a ++ 60%N :: s) <> None -> open_tag a <> None.
Proof.
  intros Ha. unfold open_tag.
  destruct (startsWith (js "<thinking>") (a ++ 60%N :: s)) eqn:E1.
  - apply startsWith_before_lt in E1; [|exact Ha|repeat constructor; discriminate].
    rewrite E1. discriminate.
  - destruct (startsWith (js "<think>") (a ++ 60%N :: s)) eqn:E2; [|congruence].
    apply startsWith_before_lt in E2; [|exact Ha|repeat constructor; discriminate].
    rewrite E2. destruct (startsWith (js "<thinking>") a); discriminate.
Qed.

Lemma opening_head tag : opening tag -> exists t, tag = 60%N :: t.
Proof. intros [-> | ->]; eexists; reflexivity. Qed.

Lemma open_tag_none_before a tag rest :
  a <> [] -> opening tag -> search re_open a = None -> open_tag (a ++ tag ++ rest) = None.
Proof.
  intros Ha [t ->]%opening_head Hnone.
  destruct (open_tag (a ++ (60%N :: t) ++ rest)) eqn:E; [|reflexivity]. exfalso.
  apply (open_tag_before_lt a (t ++ rest) Ha); [cbn [app] in E; rewrite E; discriminate|].
  rewrite search_unfold in Hnone. destruct (open_tag a); [discriminate | reflexivity].
Qed.

Lemma search_before a tag rest :
  opening tag -> search re_open a = None ->
  search re_open (a ++ tag ++ rest) = Some (length a).
Proof.
  intros Ho. induction a as [|c a IH]; intros Hnone.
  - cbn [app length]. rewrite search_unfold.
    assert (open_tag (tag ++ rest) = Some rest) as -> by (apply open_tag_spec; eauto).
    reflexivity.
  - rewrite search_unfold.
    rewrite (open_tag_none_before (c :: a) tag rest) by (try discriminate; assumption).
    cbn [app]. rewrite IH by (apply (search_tail c); exact Hnone). reflexivity.
Qed.

Lemma replace_all_before a tag rest :
  opening tag -> search re_open a = None ->
  replace_all re_block (a ++ tag ++ rest) = a ++ replace_all re_block (tag ++ rest).
Proof.
  intros Ho. induction a as [|c a IH]; intros Hnone; [reflexivity|].
  rewrite replace_blocks_unfold. unfold block_rest.
  rewrite (open_tag_none_before (c :: a) tag rest) by (try discriminate; assumption).
  cbn [mbind option_bind app]. f_equal. apply IH. apply (search_tail c). exact Hnone.
Qed.

Lemma first_close_after_tag tag rest :
  opening tag -> first_close (tag ++ rest) = first_close rest.
Proof. intros [-> | ->]; reflexivity. Qed.

(** The text that an unclosed block leaves. *)
Lemma strip_unclosed a tag rest :
  opening tag -> search re_open a = None -> first_close rest = None ->
  stripThinkingContent (a ++ tag ++ rest) = trimStart a.
Proof.
  intros Ho Ha Hrest. rewrite stripThinkingContent_phases.
  rewrite (replace_all_before a tag rest Ho Ha).
  rewrite replace_all_unclosed by (rewrite first_close_after_tag; assumption).
  unfold truncate, substring0. rewrite (search_before a tag rest Ho Ha).
  rewrite take_app_length. reflexivity.
Qed.

Lemma trimStart_drop s : exists k, trimStart s = drop k s.
Proof.
  induction s as [|c s [k IH]]; [exists 0; reflexivity|].
  simpl. destruct (isWhiteSpace c); [exists (S k); exact IH | exists 0; reflexivity].
Qed.

Lemma replace_all_sublist s : replace_all re_block s `sublist_of` s.
Proof.
  remember (length s) as n eqn:Hn. revert s Hn.
  induction n as [n IH] using lt_wf_ind. intros s ->.
  rewrite replace_blocks_unfold. destruct (block_rest s) as [rest|] eqn:E.
  - pose proof (block_rest_shorter _ _ E) as Hlt.
    apply block_rest_drop in E as [k ->].
    etransitivity; [apply (IH _ Hlt _ eq_refl) | apply sublist_drop].
  - destruct s as [|c s]; [reflexivity|].
    apply sublist_skip. apply (IH (length s)); [simpl; lia | reflexivity].
Qed.

(** A sanitized text is left as it is by the sanitizer. *)
Lemma strip_fixed t :
  stripThinkingContent (stripThinkingContent t) = stripThinkingContent t.
Proof.
  pose proof (search_strip t) as Hnone.
  rewrite stripThinkingContent_phases at 1.
  rewrite (replace_all_no_open _ Hnone). unfold truncate. rewrite Hnone.
  apply trimStart_fixed. intros c r. rewrite stripThinkingContent_phases.
  apply trimStart_head.
Qed.

End SanitizerMore.

(** X1: a text in which no opening tag [<think>] or [<thinking>] occurs is
    only left-trimmed; closing tags that stand alone are kept. *)
Theorem stripThinkingContent_without_tags : forall t,
  (forall tag, opening tag -> ~ occurs tag t) ->
  stripThinkingContent t = trimStart t.
Proof.
  intros t H. apply SanitizerFacts.search_none in H.
  rewrite SanitizerFacts.stripThinkingContent_phases.
  rewrite (SanitizerFacts.replace_all_no_open _ H). unfold truncate. rewrite H.
  reflexivity.
Qed.

(** A stray closing tag in a text without opening tag stays. *)
Lemma stripThinkingContent_stray_close :
  stripThinkingContent (js " done</think> ok") = js "done</think> ok".
Proof.
  apply (stripThinkingContent_without_tags (js " done</think> ok")).
  apply SanitizerFacts.search_none. reflexivity.
Defined.

(** X2: when an opening tag follows a text without opening tag and no
    closing tag comes after it, the tag and everything after it is
    dropped, further opening tags included, and what remains is the
    left-trimmed text before the tag. *)
Theorem stripThinkingContent_unclosed : forall a tag rest,
  opening tag ->
  (forall o, opening o -> ~ occurs o a) ->
  (forall c, closing c -> ~ occurs c rest) ->
  stripThinkingContent (a ++ tag ++ rest) = trimStart a.
Proof.
  intros a tag rest Ho Ha Hrest. apply SanitizerMore.strip_unclosed.
  - exact Ho.
  - apply SanitizerFacts.search_none. exact Ha.
  - apply SanitizerMore.first_close_none. exact Hrest.
Qed.

(** An answer followed by a reasoning block that is still open. *)
Lemma stripThinkingContent_unclosed_example :
  stripThinkingContent (js " Sure." ++ js "<thinking>" ++ js "step 1 <think> step 2")
  = js "Sure.".
Proof.
  apply (stripThinkingContent_unclosed (js " Sure.") (js "<thinking>")
           (js "step 1 <think> step 2")).
  - right. reflexivity.
  - apply SanitizerFacts.search_none. reflexivity.
  - apply SanitizerMore.first_close_none. reflexivity.
Defined.

(** X3: the sanitizer only deletes: its output is a subsequence of its
    input, so it is never longer and holds no code unit the input lacks. *)
Theorem stripThinkingContent_sublist : forall t,
  stripThinkingContent t `sublist_of` t
  /\ length (stripThinkingContent t) <= length t.
Proof.
  intros t.
  assert (stripThinkingContent t `sublist_of` t) as H.
  { rewrite SanitizerFacts.stripThinkingContent_phases.
    destruct (SanitizerMore.trimStart_drop (truncate (Regex.replace_all re_block t)))
      as [k ->].
    etransitivity; [apply sublist_drop|].
    etransitivity; [|apply SanitizerMore.replace_all_sublist].
    unfold truncate, substring0.
    destruct (Regex.search re_open _); [apply sublist_take | reflexivity]. }
  split; [exact H | apply sublist_length; exact H].
Qed.

(** ** The default extractors and the JSON path on bodies of the OpenAI shape *)

Module ExtractorFacts.

Lemma get_returns v name : nullish v = false -> exists r, get v name = Ret r.
Proof. destruct v; try discriminate; intros _; eexists; reflexivity. Qed.

(** After the first choice has been read, the delta extractor returns. *)
Lemma delta_of_first_returns first :
  exists r,
    chain first (fun first =>
      delta ← get first "delta";
      chain delta (fun delta => get delta "content")) = Ret r.
Proof.
  unfold chain. destruct (nullish first) eqn:Hf; [eexists; reflexivity|].
  destruct (get_returns first "delta" Hf) as [delta ->]. cbn [mbind result_bind].
  destruct (nullish delta) eqn:Hd; [eexists; reflexivity|].
  apply get_returns. exact Hd.
Qed.

End ExtractorFacts.

(** X4: the default delta extractor fails on a frame exactly when the frame
    is an object whose [choices] is a boolean, a number or an object, that
    is, a value without an [at] method; on every other frame (not an object,
    no [choices], an empty list, a first choice without [delta]) it returns,
    and on a frame whose first choice carries a [delta] object it returns
    the [content] of that object. *)
Theorem default_contentExtractor_failures :
  (forall d,
     (exists e, default_contentExtractor d = Throw e) <->
     (exists fields, d = JObj fields
        /\ match lookup_field (js "choices") fields with
           | JBool _ | JNum _ | JObj _ => True
           | _ => False
           end))
  /\ (forall fields choice others inner,
      lookup_field (js "choices") fields = JArr (JObj choice :: others) ->
      lookup_field (js "delta") choice = JObj inner ->
      default_contentExtractor (JObj fields) = Ret (lookup_field (js "content") inner)).
Proof.
  split.
  - intros d. unfold default_contentExtractor. split.
    + intros [e He]. destruct d; try discriminate He. exists fields. split; [reflexivity|].
      unfold chain in He. cbn [nullish get mbind result_bind] in He.
      destruct (lookup_field (js "choices") fields) as [| |b|f|s|items|inner] eqn:E;
        cbn [nullish at0 mbind result_bind] in He; try discriminate He; try exact I.
      * destruct s as [|c s]; discriminate He.
      * destruct (ExtractorFacts.delta_of_first_returns (hd JUndefined items)) as [r Hr].
        unfold chain in Hr. rewrite Hr in He. discriminate He.
    + intros [fields [-> H]]. unfold chain. cbn [nullish get mbind result_bind].
      destruct (lookup_field (js "choices") fields); try destruct H;
        eexists; reflexivity.
  - intros fields choice others inner Hc Hd. unfold default_contentExtractor, chain.
    cbn [nullish get mbind result_bind]. rewrite Hc.
    cbn [nullish at0 hd get mbind result_bind]. rewrite Hd. reflexivity.
Qed.

(** A frame of the OpenAI shape read by the default delta extractor. *)
Lemma default_contentExtractor_frame :
  default_contentExtractor (Fixtures.delta_frame "Hi") = Ret (JStr (js "Hi")).
Proof.
  apply (proj2 default_contentExtractor_failures
           [(js "choices", JArr [JObj [(js "delta", JObj [(js "content", JStr (js "Hi"))])]])]
           [(js "delta", JObj [(js "content", JStr (js "Hi"))])] []
           [(js "content", JStr (js "Hi"))]); reflexivity.
Defined.

Module JsonPathFacts.

Lemma fixed_errorExtractor newStream :
  errorExtractor (fixOpenAICompatibleOptions newStream None) = Some default_errorExtractor.
Proof. reflexivity. Qed.

Lemma fixed_fullContentExtractor newStream :
  fullContentExtractor (fixOpenAICompatibleOptions newStream None)
  = Some default_fullContentExtractor.
Proof. reflexivity. Qed.



End JsonPathFacts.

(** X5: with the default extractors, a JSON body that carries a non-empty
    string at [error.message] makes the call fail with that string as the
    message, whatever else the body holds and whatever the [ok] flag is. *)
Theorem mapResponseToAnswer_provider_error :
  forall newStream NumberToString interval now resp controller fields inner c text,
  isJsonResponse resp = true ->
  json resp = Ret (JObj fields) ->
  lookup_field (js "error") fields = JObj inner ->
  lookup_field (js "message") inner = JStr (c :: text) ->
  mapResponseToAnswer newStream NumberToString interval now resp controller None None
  = Some (Throw (mkError KError (c :: text)), []).
Proof.
  intros newStream NumberToString interval now resp controller fields inner c text
         Hjson Hbody Herror Hmessage.
  rewrite MapperFacts.mapResponseToAnswer_json by reflexivity.
  unfold jsonAnswer. rewrite Hjson, Hbody, JsonPathFacts.fixed_errorExtractor.
  cbn [negb mbind result_bind truthy call_opt].
  unfold default_errorExtractor, chain. cbn [get mbind result_bind].
  rewrite Herror. cbn [nullish get]. rewrite Hmessage. reflexivity.
Qed.

(** A rate-limit error sent with status 429 next to an empty list of
    choices. *)
Lemma mapResponseToAnswer_rate_limited :
  mapResponseToAnswer Fixtures.silent Fixtures.numeral 0 Fixtures.clock
    (Fixtures.respond false "application/json; charset=utf-8"
       (JObj [(js "choices", JArr []);
              (js "error", JObj [(js "code", JStr (js "429"));
                                  (js "message", JStr (js "slow down"))])]))
    None None None
  = Some (Throw (mkError KError (js "slow down")), []).
Proof.
  apply (mapResponseToAnswer_provider_error Fixtures.silent Fixtures.numeral 0
           Fixtures.clock _ None
           [(js "choices", JArr []);
            (js "error", JObj [(js "code", JStr (js "429"));
                                (js "message", JStr (js "slow down"))])]
           [(js "code", JStr (js "429")); (js "message", JStr (js "slow down"))]);
    vm_compute; reflexivity.
Defined.

(** X6: with the default extractors, a JSON body without [error] whose
    first choice carries a string at [message.content] is answered with
    that string, sanitized; the other choices and fields are not read. *)
Theorem mapResponseToAnswer_first_choice :
  forall newStream NumberToString interval now resp controller fields choice others inner
         text,
  isJsonResponse resp = true ->
  json resp = Ret (JObj fields) ->
  nullish (lookup_field (js "error") fields) = true ->
  lookup_field (js "choices") fields = JArr (JObj choice :: others) ->
  lookup_field (js "message") choice = JObj inner ->
  lookup_field (js "content") inner = JStr text ->
  mapResponseToAnswer newStream NumberToString interval now resp controller None None
  = Some (Ret (stripThinkingContent text), []).
Proof.
  intros newStream NumberToString interval now resp controller fields choice others inner
         text Hjson Hbody Herror Hchoices Hmessage Hcontent.
  rewrite MapperFacts.mapResponseToAnswer_json by reflexivity.
  unfold jsonAnswer.
  rewrite Hjson, Hbody, JsonPathFacts.fixed_errorExtractor,
    JsonPathFacts.fixed_fullContentExtractor.
  cbn [negb mbind result_bind truthy call_opt].
  unfold default_errorExtractor, default_fullContentExtractor, chain.
  cbn [get mbind result_bind]. rewrite Herror. cbn [truthy].
  rewrite Hchoices. cbn [nullish at0 hd get mbind result_bind].
  rewrite Hmessage. cbn [get]. rewrite Hcontent.
  unfold js_or. destruct text; reflexivity.
Qed.

(** A body with two choices and a usage record: the first choice is the
    answer. *)
Lemma mapResponseToAnswer_two_choices :
  mapResponseToAnswer Fixtures.silent Fixtures.numeral 0 Fixtures.clock
    (Fixtures.respond true "application/json"
       (JObj [(js "usage", JObj []);
              (js "choices",
               JArr [JObj [(js "message", JObj [(js "content", JStr (js " one"))])];
                     JObj [(js "message", JObj [(js "content", JStr (js "two"))])]])]))
    None None None
  = Some (Ret (js "one"), []).
Proof.
  apply (mapResponseToAnswer_first_choice Fixtures.silent Fixtures.numeral 0
           Fixtures.clock _ None
           [(js "usage", JObj []);
            (js "choices",
             JArr [JObj [(js "message", JObj [(js "content", JStr (js " one"))])];
                   JObj [(js "message", JObj [(js "content", JStr (js "two"))])]])]
           [(js "message", JObj [(js "content", JStr (js " one"))])]
           [JObj [(js "message", JObj [(js "content", JStr (js "two"))])]]
           [(js "content", JStr (js " one"))] (js " one"));
    vm_compute; reflexivity.
Defined.

(** X7: when no sink is supplied the mapper never reads the [ok] flag: two
    responses that differ in it only get the same result, so a response
    with an error status and a JSON body is answered like a successful
    one. *)
Theorem mapResponseToAnswer_ignores_ok :
  forall newStream NumberToString interval now okA okB status fields body controller
         options,
  mapResponseToAnswer newStream NumberToString interval now
    {| ok := okA; statusText := status; headers := fields; json := body |}
    controller options None
  = mapResponseToAnswer newStream NumberToString interval now
      {| ok := okB; statusText := status; headers := fields; json := body |}
      controller options None.
Proof.
  intros. rewrite !MapperFacts.mapResponseToAnswer_json by reflexivity. reflexivity.
Qed.



(** ** The timers of the orchestrator *)

Module TimerFacts.

Lemma filter_fresh ids id :
  Forall (fun t => t <= id) ids -> filter (fun t => t <> S id) (S id :: ids) = ids.
Proof.
  intros H. rewrite filter_cons_False by (intros Hne; apply Hne; reflexivity).
  induction H as [|t ids Ht _ IH]; [reflexivity|].
  rewrite filter_cons_True by lia. f_equal. exact IH.
Qed.

Lemma timers_ok_set w : timers_ok w -> timers_ok (snd (setTimeout w)).
Proof.
  unfold timers_ok, setTimeout. cbn. intros H. constructor; [lia|].
  eapply Forall_impl; [exact H|]. cbn. intros; lia.
Qed.

Lemma timers_ok_filter w id :
  timers_ok w ->
  timers_ok {| armed := filter (fun t => t <> id) (armed w); fresh := fresh w |}.
Proof.
  unfold timers_ok. cbn. rewrite !Forall_forall.
  intros H x [_ Hx]%list_elem_of_filter. apply H. exact Hx.
Qed.

End TimerFacts.

(** X14: [requestChatCompletions] keeps the timers well kept, and it leaves
    no timer behind when the timeout is disabled, when [fetch] resolves, or
    when the timeout elapses first: the armed timers after the call are
    those before it. *)
Theorem requestChatCompletions_timers :
  forall newStream NumberToString interval timeout now fetch onStream options w,
  timers_ok w ->
  timers_ok (fst (requestChatCompletions newStream NumberToString interval timeout now
                    fetch onStream options w))
  /\ ((timeout <= 0)%Z \/ (exists resp, settles fetch = Ret resp)
      \/ outlasts_timeout fetch = true ->
      armed (fst (requestChatCompletions newStream NumberToString interval timeout now
                    fetch onStream options w))
      = armed w).
Proof.
  intros newStream NumberToString interval timeout now fetch onStream options w Hw.
  unfold requestChatCompletions. destruct (Z.ltb_spec 0 timeout) as [Hpos|Hoff].
  - pose proof (TimerFacts.timers_ok_set w Hw) as Hset.
    pose proof (TimerFacts.filter_fresh (armed w) (fresh w) Hw) as Hclear.
    cbn [setTimeout] in *. cbn [snd] in Hset.
    destruct (outlasts_timeout fetch) eqn:Hrace.
    + cbn [fst elapse armed]. split; [|intros _; exact Hclear].
      apply (TimerFacts.timers_ok_filter _ _ Hset).
    + destruct (settles fetch) as [resp|e] eqn:Hsettles; cbn [fst clearTimeout armed].
      * split; [|intros _; exact Hclear].
        apply (TimerFacts.timers_ok_filter _ _ Hset).
      * split; [exact Hset|]. intros [H | [[resp H] | H]]; [lia | discriminate..].
  - destruct (outlasts_timeout fetch); destruct (settles fetch);
      cbn [fst]; split; auto.
Qed.

(** A call with a timeout of 30 s that resolves while an older timer of
    another call is armed: that timer alone stays armed. *)
Lemma requestChatCompletions_timers_example :
  armed (fst (requestChatCompletions Fixtures.silent Fixtures.numeral 0 30000
                Fixtures.clock
                {| settles := Ret (Fixtures.respond true "application/json" JNull);
                   outlasts_timeout := false |}
                None None {| armed := [3]; fresh := 7 |}))
  = [3].
Proof.
  refine (proj2 (requestChatCompletions_timers Fixtures.silent Fixtures.numeral 0 30000
                   Fixtures.clock
                   {| settles := Ret (Fixtures.respond true "application/json" JNull);
                      outlasts_timeout := false |}
                   None None {| armed := [3]; fresh := 7 |} _) _).
  - repeat constructor.
  - right. left. eexists. reflexivity.
Defined.

(** ** The two paths of the mapper on the same answer *)

Module PathFacts.

Lemma default_contentExtractor_deltaFrame text :
  default_contentExtractor (deltaFrame text) = Ret (JStr text).
Proof. reflexivity. Qed.

Lemma typed_deltaFrame text :
  typed default_contentExtractor (deltaFrame text) = Ret (Some text).
Proof. reflexivity. Qed.

Lemma wellTyped_deltaFrames texts :
  forallb (wellTyped default_contentExtractor) (map deltaFrame texts) = true.
Proof. induction texts as [|text texts IH]; [reflexivity|]. cbn [map forallb]. exact IH. Qed.

Lemma collected_deltaFrames texts :
  collected (typed default_contentExtractor) (map deltaFrame texts) = concat texts.
Proof.
  induction texts as [|text texts IH]; [reflexivity|].
  cbn [map collected concat]. rewrite typed_deltaFrame, IH. reflexivity.
Qed.

End PathFacts.

(** X12: with the default extractors and a sink that never rejects, a
    successful event stream whose frames carry the deltas [texts] and then
    ends is answered with the same text as a JSON response whose first
    choice carries their concatenation: the sanitized concatenation. *)
Theorem streaming_path_agrees_with_json :
  forall NumberToString interval now streamed whole controller sink texts,
  ok streamed = true -> isEventStreamResponse streamed = true ->
  isJsonResponse whole = true -> json whole = Ret (messageBody (concat texts)) ->
  (forall text, sink text = Ret tt) ->
  fst <$> mapResponseToAnswer (streamOf texts) NumberToString interval now streamed
            controller None (Some sink)
  = Some (Ret (stripThinkingContent (concat texts)))
  /\ fst <$> mapResponseToAnswer (streamOf texts) NumberToString interval now whole
               controller None None
     = Some (Ret (stripThinkingContent (concat texts))).
Proof.
  intros NumberToString interval now streamed whole controller sink texts
         Hok Hstream Hjson Hbody Hsink.
  split.
  - unfold mapResponseToAnswer. rewrite Hok, Hstream.
    cbn [bool_decide andb fixOpenAICompatibleOptions streamBuilder contentExtractor
         or_else no_options default_streamBuilder streamOf mbind result_bind mret
         result_ret frames].
    rewrite bool_decide_eq_true_2 by (eexists; reflexivity). cbn [andb].
    rewrite PathFacts.wellTyped_deltaFrames. unfold streamHandler. cbn [frames failure].
    destruct (StreamFacts.consume_collected interval now
                (typed default_contentExtractor) (Some sink) (map deltaFrame texts)
                (initial now)) as [st [Hrun Hfull]].
    + intros part [text [<- _]]%in_map_iff. eexists. apply PathFacts.typed_deltaFrame.
    + intros f text [= <-]. apply Hsink.
    + specialize (Hrun [] None). rewrite app_nil_r in Hrun. rewrite Hrun. cbn [consume].
      rewrite Hfull, PathFacts.collected_deltaFrames. reflexivity.
  - rewrite MapperFacts.mapResponseToAnswer_json by reflexivity.
    unfold jsonAnswer. rewrite Hjson, Hbody.
    cbn [negb mbind result_bind truthy messageBody fmap option_fmap option_map fst].
    destruct (concat texts); reflexivity.
Qed.

(** The answer [Hello] sent in two deltas and sent whole. *)
Lemma streaming_path_agrees_with_json_example :
  fst <$> mapResponseToAnswer (streamOf [js "Hel"; js "lo"]) Fixtures.numeral 0
            Fixtures.clock (Fixtures.respond true "text/event-stream" JNull)
            None None (Some Fixtures.sink)
  = Some (Ret (js "Hello"))
  /\ fst <$> mapResponseToAnswer (streamOf [js "Hel"; js "lo"]) Fixtures.numeral 0
               Fixtures.clock
               (Fixtures.respond true "application/json" (messageBody (js "Hello")))
               None None None
     = Some (Ret (js "Hello")).
Proof.
  apply (streaming_path_agrees_with_json Fixtures.numeral 0 Fixtures.clock
           (Fixtures.respond true "text/event-stream" JNull)
           (Fixtures.respond true "application/json" (messageBody (js "Hello")))
           None Fixtures.sink [js "Hel"; js "lo"]);
    first [reflexivity | vm_compute; reflexivity | intros; reflexivity].
Defined.

(** ** What the stream consumer keeps from frame to frame *)

Module StreamInvariants.

Section Invariants.
Context {T : Type}.
Variable interval : Z.
Variable now : nat -> Z.
Variable contentExtractor : T -> result (option jsstring).
Variable onStream : option (jsstring -> result unit).

Local Abbreviation turn := (turn interval now contentExtractor onStream).
Local Abbreviation consume := (consume interval now contentExtractor onStream).

(** The locals after a turn: untouched, grown by the delta, grown with one
    more reading of the clock, or grown and flushed. *)
Lemma turn_shape st part :
  fst (turn st part) = st
  \/ exists text, text <> [] /\ contentExtractor part = Ret (Some text)
       /\ let st1 := grown st text (Z.of_nat (length text)) in
          fst (turn st part) = st1
          \/ fst (turn st part)
             = {| contentFull := contentFull st1; lengthDelta := lengthDelta st1;
                  updateStep := updateStep st1; lastUpdateTime := lastUpdateTime st1;
                  lastStreamText := lastStreamText st1; readings := S (readings st1);
                  delivered := delivered st1 |}
          \/ ((updateStep st1 < lengthDelta st1)%Z
              /\ exists time k, fst (turn st part) = fst (flush onStream time k st1)).
Proof.
  destruct (contentExtractor part) as [[text|]|e] eqn:E;
    [|left; unfold StreamConsumer.turn; rewrite E; reflexivity..].
  destruct text as [|c text]; [left; unfold StreamConsumer.turn; rewrite E; reflexivity|].
  right. exists (c :: text). split; [discriminate|]. split; [reflexivity|].
  rewrite (ThresholdFacts.turn_text interval now contentExtractor onStream st part
             (c :: text) E) by discriminate.
  cbn zeta. set (st1 := grown st (c :: text) (Z.of_nat (length (c :: text)))).
  destruct (Z.ltb_spec (updateStep st1) (lengthDelta st1)) as [Hlt|]; [|left; reflexivity].
  destruct (0 <? interval)%Z; [|right; right; split; [exact Hlt | eauto]].
  destruct (_ <? interval)%Z; [right; left; reflexivity|].
  right; right; split; [exact Hlt | eauto].
Qed.

(** A property of the locals that every turn keeps holds after the loop. *)
Lemma consume_keeps (P : Locals -> Prop) :
  (forall st part, P st -> P (fst (turn st part))) ->
  forall parts ending st, P st -> P (fst (consume parts ending st)).
Proof.
  intros Hturn parts ending. induction parts as [|part parts IH]; intros st H; [exact H|].
  cbn [StreamConsumer.consume]. specialize (Hturn st part H).
  destruct (turn st part) as [st1 [e|]]; [exact Hturn | apply IH; exact Hturn].
Qed.

Lemma flush_keeps_log time k st :
  sink_log_ok onStream st -> sink_log_ok onStream (fst (flush onStream time k st)).
Proof.
  intros [Hall [Hadj [Hlast Hnone]]]. unfold flush.
  destruct (bool_decide (stripThinkingContent (contentFull st) <> [])) eqn:Hne;
    [|repeat split; assumption].
  destruct (bool_decide (stripThinkingContent (contentFull st) <> lastStreamText st))
    eqn:Hnew; [|repeat split; assumption].
  apply bool_decide_eq_true_1 in Hne, Hnew. cbn [andb]. unfold deliver.
  destruct onStream as [sink|] eqn:Hsink.
  - assert (sink_log_ok (Some sink)
              {| contentFull := contentFull st; lengthDelta := 0;
                 updateStep := updateStep st + 20; lastUpdateTime := time;
                 lastStreamText := stripThinkingContent (contentFull st);
                 readings := k;
                 delivered :=
                   (stripThinkingContent (contentFull st) ++ newline ++ js "...")
                     :: delivered st |}) as Hok.
    { unfold sink_log_ok. cbn [delivered lastStreamText]. repeat split.
      - constructor; [|exact Hall].
        exists (stripThinkingContent (contentFull st)). split; [reflexivity|].
        split; [exact Hne | apply SanitizerMore.strip_fixed].
      - intros pre d1 d2 post H. destruct pre as [|d pre].
        + injection H as <- H. specialize (Hlast d2 post H). subst d2.
          intros Heq. apply app_inv_tail in Heq. contradiction.
        + injection H as _ H. apply (Hadj pre d1 d2 post). exact H.
      - intros d older [= <- _]. reflexivity.
      - discriminate. }
    destruct (sink _); exact Hok.
  - cbn [fst]. unfold sink_log_ok. cbn [delivered lastStreamText].
    rewrite (Hnone eq_refl). split; [constructor|].
    split; [intros pre d1 d2 post H; destruct pre; discriminate|].
    split; [discriminate | reflexivity].
Qed.

Lemma turn_keeps_log st part :
  sink_log_ok onStream st -> sink_log_ok onStream (fst (turn st part)).
Proof.
  intros H. destruct (turn_shape st part) as [-> | [text [_ [_ [-> | [-> | [_ [time [k ->]]]]]]]]];
    [exact H | exact H | exact H|].
  apply flush_keeps_log. exact H.
Qed.

Lemma flush_keeps_threshold time k st :
  threshold_ok st -> (updateStep st < lengthDelta st)%Z ->
  threshold_ok (fst (flush onStream time k st)).
Proof.
  intros [n [Hn [Hstep [Hcount [Hlog Hsum]]]]] Hlt.
  destruct (ThresholdFacts.flush_fields onStream time k st) as [Hstep' Hcount'].
  pose proof (StreamFacts.flush_contentFull onStream time k st) as Hfull.
  pose proof (ThresholdFacts.flush_delivered onStream time k st) as Hlog'.
  exists (n + 1)%Z. rewrite Hstep', Hcount', Hfull.
  assert (Z.of_nat (length (delivered (fst (flush onStream time k st))))
          <= Z.of_nat (length (delivered st)) + 1)%Z as Hlen.
  { rewrite Hlog'. destruct (_ && _); [destruct onStream|]; cbn [length]; lia. }
  repeat split; first [lia | nia].
Qed.

Lemma turn_keeps_threshold st part :
  threshold_ok st -> threshold_ok (fst (turn st part)).
Proof.
  intros H.
  destruct (turn_shape st part) as [-> | [text [_ [_ Hcases]]]]; [exact H|].
  assert (threshold_ok (grown st text (Z.of_nat (length text)))) as Hgrown.
  { destruct H as [n [Hn [Hstep [Hcount [Hlog Hsum]]]]]. exists n.
    cbn [grown updateStep lengthDelta delivered contentFull]. rewrite length_app.
    repeat split; try assumption; lia. }
  cbn zeta in Hcases. destruct Hcases as [-> | [-> | [Hlt [time [k ->]]]]].
  - exact Hgrown.
  - exact Hgrown.
  - apply flush_keeps_threshold; assumption.
Qed.

Lemma consume_contentFull_length parts ending st :
  length (contentFull (fst (consume parts ending st)))
  <= length (contentFull st) + length (collected contentExtractor parts).
Proof.
  revert st. induction parts as [|part parts IH]; intros st; [cbn; lia|].
  cbn [StreamConsumer.consume collected].
  destruct (contentExtractor part) as [delta|e] eqn:E.
  - pose proof (StreamFacts.turn_contentFull interval now contentExtractor onStream
                  st part delta E) as Hfull.
    assert (length (default [] delta ++ collected contentExtractor parts)
            = length match delta with
                     | Some text => text ++ collected contentExtractor parts
                     | None => collected contentExtractor parts
                     end) as <- by (destruct delta; reflexivity).
    rewrite length_app.
    destruct (turn st part) as [st1 [e|]]; cbn [fst] in Hfull |- *.
    + rewrite Hfull, length_app. lia.
    + specialize (IH st1). rewrite Hfull, length_app in IH. lia.
  - unfold StreamConsumer.turn. rewrite E. cbn [fst]. lia.
Qed.

End Invariants.

End StreamInvariants.

(** X9: every text [streamHandler] hands to the sink is a sanitized,
    non-empty text followed by a newline and [...], and no two texts handed
    over one after the other are equal. *)
Theorem streamHandler_deliveries :
  forall (T : Type) interval now (contentExtractor : T -> result (option jsstring))
         onStream stream,
  Forall partial_text (snd (streamHandler interval now contentExtractor onStream stream))
  /\ (forall pre d1 d2 post,
      snd (streamHandler interval now contentExtractor onStream stream)
      = pre ++ d1 :: d2 :: post -> d1 <> d2).
Proof.
  intros T interval now contentExtractor onStream stream.
  rewrite ThresholdFacts.streamHandler_delivered.
  destruct (StreamInvariants.consume_keeps interval now contentExtractor onStream
              (sink_log_ok onStream)
              (StreamInvariants.turn_keeps_log interval now contentExtractor onStream)
              (frames stream) (failure stream) (initial now))
    as [Hall [Hadj _]].
  { split; [constructor|].
    split; [intros pre d1 d2 post H; destruct pre; discriminate|].
    split; [discriminate | reflexivity]. }
  split; [apply Forall_forall; intros d Hd; rewrite Forall_forall in Hall; apply Hall;
          apply list_elem_of_In; apply list_elem_of_In, in_rev in Hd; exact Hd|].
  intros pre d1 d2 post H Heq. apply (f_equal (@rev _)) in H.
  rewrite rev_involutive, rev_app_distr in H. cbn [rev] in H.
  rewrite <- !app_assoc in H. cbn [app] in H.
  apply (Hadj (rev post) d2 d1 (rev pre)); [exact H | symmetry; exact Heq].
Qed.

(** X10: the sink is handed few texts: when [streamHandler] has handed over
    [m] texts, the deltas of the stream hold at least [51 m + 10 m (m - 1)]
    code units, so 100 code units allow one text and 1000 at most eight. *)
Theorem streamHandler_delivery_bound :
  forall (T : Type) interval now (contentExtractor : T -> result (option jsstring))
         onStream stream,
  let m := Z.of_nat (length (snd (streamHandler interval now contentExtractor onStream
                                    stream))) in
  (51 * m + 10 * m * (m - 1)
   <= Z.of_nat (length (collected contentExtractor (frames stream))))%Z.
Proof.
  intros T interval now contentExtractor onStream stream m. subst m.
  rewrite ThresholdFacts.streamHandler_delivered, length_rev.
  destruct (StreamInvariants.consume_keeps interval now contentExtractor onStream
              threshold_ok
              (StreamInvariants.turn_keeps_threshold interval now contentExtractor onStream)
              (frames stream) (failure stream) (initial now))
    as [n [Hn [_ [Hcount [Hlog Hsum]]]]].
  { exists 0%Z. cbn. repeat split; lia. }
  pose proof (StreamInvariants.consume_contentFull_length interval now contentExtractor
                onStream (frames stream) (failure stream) (initial now)) as Hlen.
  cbn [initial contentFull length] in Hlen.
  set (st := fst (consume _ _ _ _ _ _ (initial now))) in *.
  nia.
Qed.

(** ** The sink while a reasoning block is open *)

Module ThinkingFacts.

Lemma tagged_prefix (cf x tag rest : jsstring) :
  cf ++ x = tag ++ rest -> length tag <= length cf ->
  exists r1, cf = tag ++ r1 /\ rest = r1 ++ x.
Proof.
  intros H Hlen.
  assert (cf = tag ++ take (length cf - length tag) rest) as Hcf.
  { rewrite <- (take_app_length cf x) at 1. rewrite H. apply take_app_ge. exact Hlen. }
  remember (take (length cf - length tag) rest) as r1 eqn:Hr1. clear Hr1.
  exists r1. split; [exact Hcf|]. subst cf. rewrite <- app_assoc in H.
  apply app_inv_head in H. symmetry. exact H.
Qed.

Lemma first_close_prefix r1 x : first_close (r1 ++ x) = None -> first_close r1 = None.
Proof.
  rewrite !SanitizerMore.first_close_none. intros H tag Hc [a [b Hab]].
  apply (H tag Hc). exists a, (b ++ x). rewrite Hab, <- !app_assoc. reflexivity.
Qed.

(** A text that begins with an opening tag that is never closed is
    sanitized to nothing. *)
Lemma strip_open_block tag r1 :
  opening tag -> first_close r1 = None -> stripThinkingContent (tag ++ r1) = [].
Proof.
  intros Ho Hr1. apply (SanitizerMore.strip_unclosed [] tag r1 Ho); [reflexivity | exact Hr1].
Qed.

Section Hidden.
Context {T : Type}.
Variable interval : Z.
Variable now : nat -> Z.
Variable contentExtractor : T -> result (option jsstring).
Variable onStream : option (jsstring -> result unit).
Variable tag rest : jsstring.
Hypothesis tag_opens : opening tag.
Hypothesis rest_open : first_close rest = None.

Lemma turn_keeps_quiet st part parts :
  quiet st ->
  contentFull st ++ collected contentExtractor (part :: parts) = tag ++ rest ->
  quiet (fst (turn interval now contentExtractor onStream st part))
  /\ (snd (turn interval now contentExtractor onStream st part) = None ->
      contentFull (fst (turn interval now contentExtractor onStream st part))
        ++ collected contentExtractor parts = tag ++ rest).
Proof.
  intros [Hcount [Hstep Hlog]] Htotal. cbn [collected] in Htotal.
  destruct (contentExtractor part) as [delta|e] eqn:E;
    [|unfold turn; rewrite E; cbn [fst snd]; split; [repeat split; assumption | discriminate]].
  cbn beta iota in Htotal. split.
  - destruct (StreamInvariants.turn_shape interval now contentExtractor onStream st part)
      as [-> | [text [_ [E' Hcases]]]]; [repeat split; assumption|].
    rewrite E in E'. injection E' as ->.
    assert (quiet (grown st text (Z.of_nat (length text)))) as Hgrown.
    { unfold quiet. cbn [grown lengthDelta contentFull updateStep delivered].
      rewrite length_app. repeat split; [lia | assumption..]. }
    cbn zeta in Hcases. destruct Hcases as [-> | [-> | [Hlt [time [k ->]]]]];
      [exact Hgrown | exact Hgrown |].
    set (st1 := grown st text (Z.of_nat (length text))) in *.
    destruct Hgrown as [Hcount1 [Hstep1 Hlog1]].
    destruct (ThresholdFacts.flush_fields onStream time k st1) as [Hstep' Hcount'].
    pose proof (StreamFacts.flush_contentFull onStream time k st1) as Hfull.
    pose proof (ThresholdFacts.flush_delivered onStream time k st1) as Hlog'.
    assert (stripThinkingContent (contentFull st1) = []) as Hshown.
    { destruct (tagged_prefix (contentFull st1) (collected contentExtractor parts)
                  tag rest) as [r1 [-> Hrest]].
      - subst st1. cbn [grown contentFull]. rewrite <- app_assoc. exact Htotal.
      - assert (length tag <= 10) by (destruct tag_opens as [-> | ->]; cbn; lia). lia.
      - apply (strip_open_block tag r1 tag_opens).
        apply (first_close_prefix r1 (collected contentExtractor parts)).
        rewrite <- Hrest. exact rest_open. }
    rewrite Hshown in Hlog'.
    rewrite bool_decide_eq_false_2 in Hlog' by (intros Hne; apply Hne; reflexivity).
    cbn [andb] in Hlog'. unfold quiet. rewrite Hstep', Hcount', Hlog', Hfull.
    repeat split; [lia | lia | exact Hlog1].
  - intros _.
    rewrite (StreamFacts.turn_contentFull interval now contentExtractor onStream
               st part delta E).
    rewrite <- app_assoc. destruct delta; exact Htotal.
Qed.

Lemma consume_keeps_quiet parts ending st :
  quiet st -> contentFull st ++ collected contentExtractor parts = tag ++ rest ->
  delivered (fst (consume interval now contentExtractor onStream parts ending st)) = [].
Proof.
  revert st. induction parts as [|part parts IH]; intros st Hq Htotal.
  - destruct Hq as [_ [_ Hlog]]. exact Hlog.
  - cbn [consume].
    destruct (turn_keeps_quiet st part parts Hq Htotal) as [Hq1 Htotal1].
    destruct (turn interval now contentExtractor onStream st part) as [st1 [e|]];
      cbn [fst snd] in *.
    + destruct Hq1 as [_ [_ Hlog]]. exact Hlog.
    + apply IH; [exact Hq1 | apply Htotal1; reflexivity].
Qed.
End Hidden.

End ThinkingFacts.

(** X13: when the deltas of a stream begin with an opening tag and hold no
    closing tag after it, [streamHandler] hands nothing to the sink,
    whatever the lengths of the deltas and the time-based throttling: the
    reasoning of a block that is still open is never shown. *)
Theorem streamHandler_hides_open_block :
  forall (T : Type) interval now (contentExtractor : T -> result (option jsstring))
         onStream stream tag rest,
  opening tag ->
  collected contentExtractor (frames stream) = tag ++ rest ->
  (forall c, closing c -> ~ occurs c rest) ->
  snd (streamHandler interval now contentExtractor onStream stream) = [].
Proof.
  intros T interval now contentExtractor onStream stream tag rest Ho Htotal Hrest.
  rewrite ThresholdFacts.streamHandler_delivered.
  rewrite (ThinkingFacts.consume_keeps_quiet interval now contentExtractor onStream
             tag rest Ho (proj2 (SanitizerMore.first_close_none rest) Hrest)
             (frames stream) (failure stream) (initial now));
    [reflexivity | | exact Htotal].
  unfold quiet. cbn. repeat split; lia.
Qed.

(** A reasoning block of 97 code units in ten frames, still open when the
    stream ends. *)
Lemma streamHandler_hides_open_block_example :
  snd (streamHandler 0 Fixtures.clock (fun text : jsstring => Ret (Some text))
         (Some Fixtures.sink)
         {| frames := js "<think>" :: replicate 9 (js "reasoning ");
            failure := None |})
  = [].
Proof.
  apply (streamHandler_hides_open_block jsstring 0 Fixtures.clock
           (fun text => Ret (Some text)) (Some Fixtures.sink)
           {| frames := js "<think>" :: replicate 9 (js "reasoning "); failure := None |}
           (js "<think>") (concat (replicate 9 (js "reasoning ")))).
  - left. reflexivity.
  - reflexivity.
  - apply SanitizerMore.first_close_none. reflexivity.
Defined.

(** ** Throttling by time, frames without text, and a single closed block *)

Module ThrottleFacts.

Section Throttle.
Context {T : Type}.
Variable interval : Z.
Variable now : nat -> Z.
Variable contentExtractor : T -> result (option jsstring).
Variable onStream : option (jsstring -> result unit).
Hypothesis throttled : (0 < interval)%Z.
Hypothesis fast : forall k : nat, (now k - now 0%nat < interval)%Z.

Lemma turn_keeps_waiting st part :
  waiting now st -> waiting now (fst (turn interval now contentExtractor onStream st part)).
Proof.
  intros [Htime [Hstep Hlog]].
  destruct (contentExtractor part) as [[text|]|e] eqn:E;
    [|unfold turn; rewrite E; repeat split; assumption..].
  destruct text as [|c text]; [unfold turn; rewrite E; repeat split; assumption|].
  rewrite (ThresholdFacts.turn_text interval now contentExtractor onStream st part
             (c :: text) E) by discriminate.
  cbn zeta. cbn [grown updateStep lengthDelta lastUpdateTime readings contentFull
                 lastStreamText delivered].
  destruct (_ <? _)%Z; [|repeat split; assumption].
  destruct (Z.ltb_spec 0 interval); [|lia].
  rewrite Htime. destruct (Z.ltb_spec (now (readings st) - now 0) interval) as [_|Hge];
    [repeat split; assumption|].
  specialize (fast (readings st)). lia.
Qed.
End Throttle.

Section Skipped.
Context {T : Type}.
Variable interval : Z.
Variable now : nat -> Z.
Variable contentExtractor : T -> result (option jsstring).
Variable onStream : option (jsstring -> result unit).

Lemma consume_without before part after ending st :
  textless contentExtractor part ->
  consume interval now contentExtractor onStream (before ++ part :: after) ending st
  = consume interval now contentExtractor onStream (before ++ after) ending st.
Proof.
  intros Hpart. revert st. induction before as [|p before IH]; intros st.
  - cbn [app consume]. unfold turn. destruct Hpart as [-> | ->]; reflexivity.
  - cbn [app consume].
    destruct (turn interval now contentExtractor onStream st p) as [st1 [e|]];
      [reflexivity | apply IH].
Qed.
End Skipped.

Lemma close_tag_before_lt a s :
  a <> [] -> close_tag (a ++ 60%N :: s) <> None -> close_tag a <> None.
Proof.
  intros Ha. unfold close_tag.
  destruct (startsWith (js "</thinking>") (a ++ 60%N :: s)) eqn:E1.
  - apply SanitizerMore.startsWith_before_lt in E1;
      [|exact Ha|repeat constructor; discriminate].
    rewrite E1. discriminate.
  - destruct (startsWith (js "</think>") (a ++ 60%N :: s)) eqn:E2; [|congruence].
    apply SanitizerMore.startsWith_before_lt in E2;
      [|exact Ha|repeat constructor; discriminate].
    rewrite E2. destruct (startsWith (js "</thinking>") a); discriminate.
Qed.

Lemma closing_head tag : closing tag -> exists t, tag = 60%N :: t.
Proof. intros [-> | ->]; eexists; reflexivity. Qed.

(** The first closing tag after a body without closing tag is the one that
    follows the body. *)
Lemma first_close_after_body body c rest :
  closing c -> first_close body = None -> first_close (body ++ c ++ rest) = Some rest.
Proof.
  intros Hc Hbody. apply SanitizerFacts.first_close_spec. exists body, c.
  split; [exact Hc|]. split; [reflexivity|].
  intros b1 b2 Hsplit Hne Hhere. apply SanitizerFacts.close_tag_none in Hhere; [exact Hhere|].
  destruct (closing_head c Hc) as [t ->].
  destruct (close_tag (b2 ++ (60%N :: t) ++ rest)) eqn:E; [exfalso|reflexivity].
  apply (close_tag_before_lt b2 (t ++ rest) Hne); [cbn [app] in E; rewrite E; discriminate|].
  assert (first_close b2 = None) as Hb2.
  { rewrite Hsplit in Hbody. revert Hbody. clear. induction b1 as [|x b1 IH]; [auto|].
    intros H. apply IH. apply (SanitizerMore.first_close_tail x). exact H. }
  rewrite SanitizerFacts.first_close_unfold in Hb2.
  destruct (close_tag b2); [discriminate | reflexivity].
Qed.

Lemma search_app_l a b : Regex.search re_open (a ++ b) = None -> Regex.search re_open a = None.
Proof.
  rewrite !SanitizerFacts.search_none. intros H tag Ho [x [y Hxy]].
  apply (H tag Ho). exists x, (y ++ b). rewrite Hxy, <- !app_assoc. reflexivity.
Qed.

Lemma search_app_r a b : Regex.search re_open (a ++ b) = None -> Regex.search re_open b = None.
Proof.
  rewrite !SanitizerFacts.search_none. intros H tag Ho [x [y Hxy]].
  apply (H tag Ho). exists (a ++ x), y. rewrite Hxy, <- !app_assoc. reflexivity.
Qed.

End ThrottleFacts.

(** X11: with a positive minimum interval, a stream during which the clock
    never reads [interval] or more past its first reading hands nothing to
    the sink and never raises the threshold. *)
Theorem streamHandler_throttled :
  forall (T : Type) interval now (contentExtractor : T -> result (option jsstring))
         onStream stream,
  (0 < interval)%Z -> (forall k : nat, (now k - now 0%nat < interval)%Z) ->
  snd (streamHandler interval now contentExtractor onStream stream) = []
  /\ updateStep (fst (consume interval now contentExtractor onStream (frames stream)
                        (failure stream) (initial now))) = 50%Z.
Proof.
  intros T interval now contentExtractor onStream stream Hpos Hfast.
  rewrite ThresholdFacts.streamHandler_delivered.
  destruct (StreamInvariants.consume_keeps interval now contentExtractor onStream
              (waiting now)
              (ThrottleFacts.turn_keeps_waiting interval now contentExtractor onStream
                 Hpos Hfast)
              (frames stream) (failure stream) (initial now))
    as [_ [Hstep Hlog]]; [repeat split|].
  rewrite Hlog. split; [reflexivity | exact Hstep].
Qed.

(** Twelve frames of ten code units with a minimum interval of one second
    on a clock that stands still. *)
Lemma streamHandler_throttled_example :
  snd (streamHandler 1000 Fixtures.clock (fun text : jsstring => Ret (Some text))
         (Some Fixtures.sink)
         {| frames := replicate 12 (js "0123456789"); failure := None |})
  = [].
Proof.
  apply (streamHandler_throttled jsstring 1000 Fixtures.clock
           (fun text => Ret (Some text)) (Some Fixtures.sink)
           {| frames := replicate 12 (js "0123456789"); failure := None |}).
  - reflexivity.
  - intros k. reflexivity.
Defined.

(** X16: a frame whose delta is [null] or the empty string can be taken out
    of a stream, wherever it stands, without changing the answer or the
    texts handed to the sink. *)
Theorem streamHandler_skips_textless :
  forall (T : Type) interval now (contentExtractor : T -> result (option jsstring))
         onStream before part after ending,
  textless contentExtractor part ->
  streamHandler interval now contentExtractor onStream
    {| frames := before ++ part :: after; failure := ending |}
  = streamHandler interval now contentExtractor onStream
      {| frames := before ++ after; failure := ending |}.
Proof.
  intros T interval now contentExtractor onStream before part after ending Hpart.
  unfold streamHandler. cbn [frames failure].
  rewrite (ThrottleFacts.consume_without interval now contentExtractor onStream
             before part after ending (initial now) Hpart).
  reflexivity.
Qed.

(** A role frame without content between two deltas, read by the default
    delta extractor. *)
Lemma streamHandler_skips_textless_example :
  streamHandler 0 Fixtures.clock (typed default_contentExtractor) (Some Fixtures.sink)
    {| frames := [deltaFrame (js "Hel")] ++ JObj [(js "choices", JArr [])]
                   :: [deltaFrame (js "lo")];
       failure := None |}
  = streamHandler 0 Fixtures.clock (typed default_contentExtractor) (Some Fixtures.sink)
      {| frames := [deltaFrame (js "Hel")] ++ [deltaFrame (js "lo")]; failure := None |}.
Proof.
  apply (streamHandler_skips_textless JsVal 0 Fixtures.clock
           (typed default_contentExtractor) (Some Fixtures.sink)
           [deltaFrame (js "Hel")] (JObj [(js "choices", JArr [])])
           [deltaFrame (js "lo")] None).
  left. reflexivity.
Defined.

(** X15: one closed block between two texts: when the body holds no
    closing tag and no opening tag occurs in the text around the block, the
    block is removed, whichever forms its two tags have, and the result is
    the left-trimmed text around it. *)
Theorem stripThinkingContent_closed_block : forall a o body c b,
  opening o -> closing c ->
  (forall tag, closing tag -> ~ occurs tag body) ->
  (forall tag, opening tag -> ~ occurs tag (a ++ b)) ->
  stripThinkingContent (a ++ o ++ body ++ c ++ b) = trimStart (a ++ b).
Proof.
  intros a o body c b Ho Hc Hbody Hclean.
  apply SanitizerMore.first_close_none in Hbody.
  apply SanitizerFacts.search_none in Hclean.
  rewrite SanitizerFacts.stripThinkingContent_phases.
  rewrite (SanitizerMore.replace_all_before a o (body ++ c ++ b) Ho
             (ThrottleFacts.search_app_l a b Hclean)).
  rewrite SanitizerFacts.replace_blocks_unfold. unfold block_rest.
  assert (open_tag (o ++ body ++ c ++ b) = Some (body ++ c ++ b)) as ->
    by (apply SanitizerFacts.open_tag_spec; eauto).
  cbn [mbind option_bind]. rewrite (ThrottleFacts.first_close_after_body body c b Hc Hbody).
  rewrite (SanitizerFacts.replace_all_no_open b (ThrottleFacts.search_app_r a b Hclean)).
  unfold truncate. rewrite Hclean. reflexivity.
Qed.

(** A block opened by [<thinking>] and closed by [</think>] inside an
    answer. *)
Lemma stripThinkingContent_closed_block_example :
  stripThinkingContent
    (js " It is " ++ js "<thinking>" ++ js "2+2 <think> 4" ++ js "</think>" ++ js "four.")
  = js "It is four.".
Proof.
  apply (stripThinkingContent_closed_block (js " It is ") (js "<thinking>")
           (js "2+2 <think> 4") (js "</think>") (js "four.")).
  - right. reflexivity.
  - left. reflexivity.
  - apply SanitizerMore.first_close_none. reflexivity.
  - apply SanitizerFacts.search_none. reflexivity.
Defined.

(** ** The three phases of the sanitizer, on texts *)

(** X17: what [stripThinkingContent] computes, stated on texts without the
    matcher.  From the left, every span that runs from an opening tag
    [<think>] or [<thinking>] to the first closing tag [</think>] or
    [</thinking>] after it is dropped, whichever of the two forms that
    closing tag has, and every other code unit is kept; then the text is cut
    before the leftmost opening tag that remains, if any; then the leading
    white space is removed and nothing else.  The result of the function is
    the only text related to the input by these three phases.  So
    [a<think>secret</think>b] gives [ab], [visible<think>hidden] gives
    [visible], two leading blanks are dropped and two trailing ones kept. *)
Theorem stripThinkingContent_spec :
  (forall t r,
     stripThinkingContent t = r <->
     exists t1 t2, removes_spans t t1 /\ truncates t1 t2 /\ left_trims t2 r)
  /\ stripThinkingContent (js "a<think>secret</think>b") = js "ab"
  /\ stripThinkingContent (js "visible<think>hidden") = js "visible"
  /\ stripThinkingContent (js "  x") = js "x"
  /\ stripThinkingContent (js "x  ") = js "x  ".
Proof.
  split; [|repeat split].
  intros t r. rewrite SanitizerFacts.stripThinkingContent_phases. split.
  - intros <-. exists (Regex.replace_all re_block t), (truncate (Regex.replace_all re_block t)).
    split; [apply SanitizerFacts.removes_spans_iff; reflexivity|].
    split; [apply SanitizerFacts.truncates_iff; reflexivity|].
    apply SanitizerFacts.left_trims_iff; reflexivity.
  - intros [t1 [t2 [H1 [H2 H3]]]].
    apply SanitizerFacts.removes_spans_iff in H1. subst t1.
    apply SanitizerFacts.truncates_iff in H2. subst t2.
    apply SanitizerFacts.left_trims_iff in H3. subst r. reflexivity.
Qed.
